(** * convert.py: JSON to configuration-language converter

    A shallow embedding of [src/convert.py] and the properties its
    specification states about it.

    - Python values coming out of [json.load] are the inductive [pyval];
      [bool] is kept apart from [int] as a constructor, and every
      [isinstance(v, (int, float))] test of the source is [is_number], which
      accepts it, as Python does ([bool] is a subclass of [int]).
    - Python [int] is [Z]; Python [float] is the primitive binary64 [float].
    - Python [str] is [string]; a character is its code point, so the model
      covers the strings whose code points are below 256.
    - Exceptions are the type [exn]; a function that can raise returns a
      [result].  The text of a [ConfigError] is kept as a constructor of
      [config_msg], one per [raise] statement of the source.
    - A [dict] is the list of its items in insertion order.
    - Reading and writing files and parsing JSON are outside the model:
      [main] maps the parsed document to the list of lines it would write.
    - The interpreter's limit on the number of digits of an integer
      conversion is taken as disabled, and the recursion limit as never
      reached. *)

From Stdlib Require Import PrimFloat.
From Stdlib Require SpecFloat FloatOps.
From Stdlib Require Import ZArith List String Ascii Bool Lia.
From Stdlib Require Import DecimalString DecimalZ DecimalPos.
Import ListNotations.

Set Warnings "-register-all".

Local Open Scope string_scope.
Local Open Scope Z_scope.

(** ** Values and exceptions *)

Module Py.

(** JSON-shaped Python values. *)
Inductive pyval : Type :=
| PNone
| PBool (b : bool)
| PInt (z : Z)
| PFloat (f : float)
| PStr (s : string)
| PList (l : list pyval)
| PDict (d : list (string * pyval)).

(** One constructor per [raise ConfigError(...)] of the source, in source
    order; the comment gives the message. *)
Inductive config_msg : Type :=
| NotEnoughOperands (t : string)      (* Not enough operands for '{t}' operation. *)
| ArithmeticOnlyNumbers               (* Arithmetic operations are allowed only on numbers. *)
| NotEnoughOperandsMax                (* Not enough operands for max. *)
| MaxOnlyNumbers                      (* max is allowed only on numbers. *)
| NotEnoughOperandsAbs                (* Not enough operands for abs. *)
| AbsOnlyNumbers                      (* abs is allowed only on numbers. *)
| CannotUseArray (t : string)         (* Cannot use array '{t}' in arithmetic expression. *)
| UnknownToken (t : string)           (* Unknown token '{t}' in expression. *)
| InvalidEvaluation (stack : list pyval) (* Invalid expression evaluation. Stack: ... *)
| DictNotAllowed                      (* Dictionaries not allowed outside 'constants'. *)
| StringNotSupported (val : string)   (* String '{val}' not supported as a value. *)
| UnsupportedType (val : pyval)       (* Unsupported JSON value type: {type(val)} *)
| NoConstantsSection                  (* No 'constants' section in JSON. *)
| InvalidConstantName (k : string)    (* Invalid constant name '{k}'. *)
| ArrayOnlyNumbers                    (* Array can contain only numbers or nested arrays. *)
| ConstantNotNumberOrArray (k : string) (* Constant '{k}' must be a number or an array. *)
| InvalidTopLevelName (k : string).   (* Invalid top-level name '{k}'. *)

(** The exceptions the modelled code can raise. Only [ConfigError] is raised
    by the source itself; the others come from the interpreter. *)
Inductive exn : Type :=
| ConfigError (m : config_msg)
| OverflowError      (* int too large to convert to float *)
| AttributeError.    (* [.items()] on a value that is not a dict *)

Inductive result (A : Type) : Type :=
| Ok (a : A)
| Raise (e : exn).
Arguments Ok {A} a.
Arguments Raise {A} e.

Definition bind {A B} (r : result A) (k : A -> result B) : result B :=
  match r with
  | Ok a => k a
  | Raise e => Raise e
  end.


End Py.
Export Py.

Notation "x <- c1 ;; c2" := (bind c1 (fun x => c2))
  (at level 61, c1 at next level, right associativity).

(** ** Python strings *)

Module PyStr.

Definition code (c : ascii) : N := N_of_ascii c.

(** [str.isspace] on one character, as used by [strip] and [split]. *)
Definition isspace (c : ascii) : bool :=
  let n := code c in
  ((9 <=? n) && (n <=? 13) || (28 <=? n) && (n <=? 32)
   || (n =? 133) || (n =? 160))%N.

(** [s.startswith(p)] *)
Definition startswith (p s : string) : bool := String.prefix p s.

(** [s.endswith(p)] *)
Definition endswith (p s : string) : bool :=
  let n := String.length s in
  let k := String.length p in
  (k <=? n)%nat && String.eqb (substring (n - k) k s) p.

(** Index of a slice bound: a negative bound counts from the end, and the
    outcome is clipped to [0 .. n]. *)
Definition slice_index (i : Z) (n : nat) : nat :=
  Z.to_nat (Z.min (Z.max (if i <? 0 then i + Z.of_nat n else i) 0) (Z.of_nat n)).

(** [s[start:stop]] *)
Definition slice (s : string) (start stop : Z) : string :=
  let n := String.length s in
  let a := slice_index start n in
  let b := slice_index stop n in
  substring a (b - a) s.

Fixpoint lstrip (s : string) : string :=
  match s with
  | EmptyString => EmptyString
  | String c rest => if isspace c then lstrip rest else s
  end.

Fixpoint rstrip (s : string) : string :=
  match s with
  | EmptyString => EmptyString
  | String c rest =>
      match rstrip rest with
      | EmptyString => if isspace c then EmptyString else String c EmptyString
      | r => String c r
      end
  end.

(** [s.strip()] *)
Definition strip (s : string) : string := rstrip (lstrip s).

(** [s.split()]: the maximal runs of characters that are not whitespace. *)
Fixpoint split (s : string) : list string :=
  match s with
  | EmptyString => []
  | String c rest =>
      if isspace c then split rest
      else
        match rest with
        | EmptyString => [String c EmptyString]
        | String c' _ =>
            if isspace c' then String c EmptyString :: split rest
            else
              match split rest with
              | w :: ws => String c w :: ws
              | [] => [String c EmptyString]
              end
        end
  end.

(** [sep.join(l)] *)
Definition join (sep : string) (l : list string) : string := String.concat sep l.

End PyStr.

(** ** Python numbers *)

Module PyNum.

(** The values for which [isinstance(v, (int, float))] holds; [bool] is a
    subclass of [int]. *)
Inductive num : Type :=
| NBool (b : bool)
| NInt (z : Z)
| NFloat (f : float).

Definition of_val (v : pyval) : option num :=
  match v with
  | PBool b => Some (NBool b)
  | PInt z => Some (NInt z)
  | PFloat f => Some (NFloat f)
  | _ => None
  end.

Definition to_val (n : num) : pyval :=
  match n with
  | NBool b => PBool b
  | NInt z => PInt z
  | NFloat f => PFloat f
  end.

(** [isinstance(v, (int, float))] *)
Definition is_number (v : pyval) : bool :=
  match of_val v with
  | Some _ => true
  | None => false
  end.

(** [isinstance(v, list)] *)
Definition is_list (v : pyval) : bool :=
  match v with
  | PList _ => true
  | _ => false
  end.

(** A number as the arithmetic sees it: [True] is the integer 1 and
    [False] the integer 0. *)
Inductive operand : Type :=
| OInt (z : Z)
| OFloat (f : float).

Definition operand_of (n : num) : operand :=
  match n with
  | NBool b => OInt (Z.b2z b)
  | NInt z => OInt z
  | NFloat f => OFloat f
  end.

(** The double nearest to an integer, ties to even. *)
Definition round_to_float (z : Z) : float :=
  FloatOps.SF2Prim (SpecFloat.binary_normalize FloatOps.prec FloatOps.emax z 0 false).

(** Conversion of the [int] operand of a mixed operation: an integer whose
    nearest double is not finite raises [OverflowError]. *)
Definition float_of_int (z : Z) : result float :=
  let f := round_to_float z in
  if PrimFloat.is_infinity f then Raise OverflowError else Ok f.

(** [a op b] for [+], [-] and [*]: exact on two integers, otherwise on
    doubles after conversion of the integer operand. *)
Definition arith (zop : Z -> Z -> Z) (fop : float -> float -> float)
  (a b : num) : result num :=
  match operand_of a, operand_of b with
  | OInt x, OInt y => Ok (NInt (zop x y))
  | OInt x, OFloat g => f <- float_of_int x ;; Ok (NFloat (fop f g))
  | OFloat f, OInt y => g <- float_of_int y ;; Ok (NFloat (fop f g))
  | OFloat f, OFloat g => Ok (NFloat (fop f g))
  end.

Definition add : num -> num -> result num := arith Z.add PrimFloat.add.
Definition sub : num -> num -> result num := arith Z.sub PrimFloat.sub.
Definition mul : num -> num -> result num := arith Z.mul PrimFloat.mul.

(** Exact comparison of an integer with a double; [None] on a NaN. *)
Definition compare_int_float (z : Z) (f : float) : option comparison :=
  match FloatOps.Prim2SF f with
  | SpecFloat.S754_nan => None
  | SpecFloat.S754_zero _ => Some (z ?= 0)
  | SpecFloat.S754_infinity negative => Some (if negative then Gt else Lt)
  | SpecFloat.S754_finite negative m e =>
      let v := if negative then Z.neg m else Z.pos m in
      if 0 <=? e then Some (z ?= v * 2 ^ e) else Some (z * 2 ^ (- e) ?= v)
  end.

(** [x > y] *)
Definition gt (x y : num) : bool :=
  match operand_of x, operand_of y with
  | OInt a, OInt b => b <? a
  | OInt a, OFloat g =>
      match compare_int_float a g with Some Gt => true | _ => false end
  | OFloat f, OInt b =>
      match compare_int_float b f with Some Lt => true | _ => false end
  | OFloat f, OFloat g => PrimFloat.ltb g f
  end.

(** [max(a, b)]: [b] when [b > a], else [a]; the object itself is
    returned, so a [bool] stays a [bool]. *)
Definition max (a b : num) : num := if gt b a then b else a.

(** [abs(a)] *)
Definition abs (a : num) : num :=
  match operand_of a with
  | OInt z => NInt (Z.abs z)
  | OFloat f => NFloat (PrimFloat.abs f)
  end.

End PyNum.

(** ** [int(t)] on a string *)

Module PyInt.

(** Whitespace as [int] skips it around the literal. *)
Definition isspace (c : ascii) : bool :=
  let n := PyStr.code c in
  ((9 <=? n) && (n <=? 13) || (n =? 32) || (n =? 133) || (n =? 160))%N.

Definition digit (c : ascii) : option Z :=
  let n := PyStr.code c in
  if ((48 <=? n) && (n <=? 57))%N then Some (Z.of_N n - 48) else None.

Definition is_underscore (c : ascii) : bool := (PyStr.code c =? 95)%N.

Fixpoint skip_space (s : string) : string :=
  match s with
  | String c rest => if isspace c then skip_space rest else s
  | EmptyString => s
  end.

Fixpoint all_space (s : string) : bool :=
  match s with
  | String c rest => isspace c && all_space rest
  | EmptyString => true
  end.

(** The digits after the first one, [acc] being the value read so far: a
    single underscore may stand between two digits; whitespace may follow
    the last digit up to the end of the string. *)
Fixpoint digits (acc : Z) (s : string) : option Z :=
  match s with
  | EmptyString => Some acc
  | String c rest =>
      match digit c with
      | Some d => digits (10 * acc + d) rest
      | None =>
          if is_underscore c then
            match rest with
            | String c' rest' =>
                match digit c' with
                | Some d => digits (10 * acc + d) rest'
                | None => None
                end
            | EmptyString => None
            end
          else if all_space s then Some acc
          else None
      end
  end.

(** An unsigned literal: at least one digit. *)
Definition magnitude (s : string) : option Z :=
  match s with
  | String c rest =>
      match digit c with
      | Some d => digits d rest
      | None => None
      end
  | EmptyString => None
  end.

(** [int(t)]; [None] stands for [ValueError]. *)
Definition parse (t : string) : option Z :=
  match skip_space t with
  | String "+" rest => magnitude rest
  | String "-" rest => option_map Z.opp (magnitude rest)
  | s => magnitude s
  end.

End PyInt.

(** ** Dictionaries *)

Module PyDict.

(** The items of a [dict] in insertion order. *)
Definition dict : Type := list (string * pyval).

(** [d.get(k)]; [Some] exactly when [k in d], and then it is [d[k]]. *)
Fixpoint get (d : dict) (k : string) : option pyval :=
  match d with
  | [] => None
  | (k', v) :: rest => if String.eqb k k' then Some v else get rest k
  end.

(** [d[k] = v]: a key already present keeps its place. *)
Fixpoint set (d : dict) (k : string) (v : pyval) : dict :=
  match d with
  | [] => [(k, v)]
  | (k', v') :: rest =>
      if String.eqb k k' then (k', v) :: rest else (k', v') :: set rest k v
  end.

(** [del d[k]] for a key that is present. *)
Fixpoint del (d : dict) (k : string) : dict :=
  match d with
  | [] => []
  | (k', v') :: rest => if String.eqb k k' then rest else (k', v') :: del rest k
  end.

End PyDict.

Definition dict : Type := PyDict.dict.

(** ** [evaluate_postfix_expression] *)

(** The evaluation stack: the head of the list is the top, that is the
    last element of the Python list. *)
Definition stack : Type := list pyval.

(** [t in ['+', '-', '*']] *)
Definition is_arith_token (t : string) : bool :=
  String.eqb t "+" || String.eqb t "-" || String.eqb t "*".

(** The branch of the loop body for [+], [-] and [*]. *)
Definition eval_arith (t : string) (st : stack) : result stack :=
  match st with
  | b :: a :: rest =>
      match PyNum.of_val a, PyNum.of_val b with
      | Some x, Some y =>
          if String.eqb t "+" then r <- PyNum.add x y ;; Ok (PyNum.to_val r :: rest)
          else if String.eqb t "-" then r <- PyNum.sub x y ;; Ok (PyNum.to_val r :: rest)
          else if String.eqb t "*" then r <- PyNum.mul x y ;; Ok (PyNum.to_val r :: rest)
          else Ok rest
      | _, _ => Raise (ConfigError ArithmeticOnlyNumbers)
      end
  | _ => Raise (ConfigError (NotEnoughOperands t))
  end.

(** The branch for [max]. *)
Definition eval_max (st : stack) : result stack :=
  match st with
  | b :: a :: rest =>
      match PyNum.of_val a, PyNum.of_val b with
      | Some x, Some y => Ok (PyNum.to_val (PyNum.max x y) :: rest)
      | _, _ => Raise (ConfigError MaxOnlyNumbers)
      end
  | _ => Raise (ConfigError NotEnoughOperandsMax)
  end.

(** The branch for [abs]. *)
Definition eval_abs (st : stack) : result stack :=
  match st with
  | a :: rest =>
      match PyNum.of_val a with
      | Some x => Ok (PyNum.to_val (PyNum.abs x) :: rest)
      | None => Raise (ConfigError AbsOnlyNumbers)
      end
  | [] => Raise (ConfigError NotEnoughOperandsAbs)
  end.

(** The last branch: a constant name or an integer literal. *)
Definition eval_operand (constants : dict) (t : string) (st : stack) : result stack :=
  match PyDict.get constants t with
  | Some val =>
      if PyNum.is_list val then Raise (ConfigError (CannotUseArray t))
      else Ok (val :: st)
  | None =>
      match PyInt.parse t with
      | Some num => Ok (PInt num :: st)
      | None => Raise (ConfigError (UnknownToken t))
      end
  end.

(** One turn of the loop [for t in tokens]. *)
Definition eval_token (constants : dict) (st : stack) (t : string) : result stack :=
  if is_arith_token t then eval_arith t st
  else if String.eqb t "max" then eval_max st
  else if String.eqb t "abs" then eval_abs st
  else eval_operand constants t st.

(** The whole loop, from a given stack. *)
Fixpoint eval_tokens (constants : dict) (st : stack) (tokens : list string) : result stack :=
  match tokens with
  | [] => Ok st
  | t :: rest => st' <- eval_token constants st t ;; eval_tokens constants st' rest
  end.

Definition evaluate_postfix_expression (tokens : list string) (constants : dict)
  : result pyval :=
  st <- eval_tokens constants [] tokens ;;
  match st with
  | [v] => Ok v
  | _ => Raise (ConfigError (InvalidEvaluation (rev st)))
  end.

(** ** Loops that can raise *)

(** [[f(x) for x in l]]: the elements in order, stopping at the first
    exception. *)
Definition map_result {A B} (f : A -> result B) : list A -> result (list B) :=
  fix go (l : list A) : result (list B) :=
    match l with
    | [] => Ok []
    | x :: rest => y <- f x ;; ys <- go rest ;; Ok (y :: ys)
    end.

(** [for x in l: f(x)] *)
Definition for_each {A} (f : A -> result unit) : list A -> result unit :=
  fix go (l : list A) : result unit :=
    match l with
    | [] => Ok tt
    | x :: rest => _ <- f x ;; go rest
    end.

(** ** [str(v)] *)

(** [str(z)] of an [int]: its decimal digits, after a minus sign when it
    is negative. *)
Definition str_int (z : Z) : string := NilZero.string_of_int (Z.to_int z).

Section Converter.

(** [str] of a [float] (its shortest decimal form that reads back as the
    same double) and of a container are not modelled: they are parameters of
    the development. *)
Variable str_float : float -> string.
Variable str_container : pyval -> string.

Definition py_str (v : pyval) : string :=
  match v with
  | PNone => "None"
  | PBool true => "True"
  | PBool false => "False"
  | PInt z => str_int z
  | PFloat f => str_float f
  | PStr s => s
  | PList _ | PDict _ => str_container v
  end.

(** ** [process_value] *)

Fixpoint process_value (val : pyval) (constants : dict) : result string :=
  match val with
  | PDict _ => Raise (ConfigError DictNotAllowed)
  | PList l =>
      transformed <- map_result (fun x => process_value x constants) l ;;
      Ok ("[" ++ PyStr.join ", " transformed ++ "]")
  | PStr s =>
      if PyStr.startswith "@(" s && PyStr.endswith ")" s then
        let expr_body := PyStr.strip (PyStr.slice s 2 (-1)) in
        let tokens := PyStr.split expr_body in
        r <- evaluate_postfix_expression tokens constants ;;
        Ok (py_str r)
      else Raise (ConfigError (StringNotSupported s))
  | PBool _ | PInt _ | PFloat _ => Ok (py_str val)
  | PNone => Raise (ConfigError (UnsupportedType val))
  end.

(** ** [main] *)

(** [name_pattern.match(k)] for [^[a-z][a-z0-9_]*$]; [$] also matches just
    before a newline that ends the string. *)
Definition is_lower (c : ascii) : bool :=
  let n := PyStr.code c in ((97 <=? n) && (n <=? 122))%N.

Definition is_name_char (c : ascii) : bool :=
  let n := PyStr.code c in
  (is_lower c || (48 <=? n) && (n <=? 57) || (n =? 95))%N.

Fixpoint name_tail (s : string) : bool :=
  match s with
  | EmptyString => true
  | String c rest =>
      if is_name_char c then name_tail rest
      else (PyStr.code c =? 10)%N && String.eqb rest ""
  end.

Definition name_match (k : string) : bool :=
  match k with
  | String c rest => is_lower c && name_tail rest
  | EmptyString => false
  end.

(** The body of the loop of [check_array], on one element. *)
Fixpoint check_elem (elem : pyval) : result unit :=
  if PyNum.is_number elem then Ok tt
  else
    match elem with
    | PList arr => for_each check_elem arr
    | _ => Raise (ConfigError ArrayOnlyNumbers)
    end.

Definition check_array (arr : list pyval) : result unit :=
  for_each check_elem arr.

(** The loop that fills [constants] from the items of the constants
    section. *)
Fixpoint build_constants (items : list (string * pyval)) (constants : dict)
  : result dict :=
  match items with
  | [] => Ok constants
  | (k, v) :: rest =>
      if negb (name_match k) then Raise (ConfigError (InvalidConstantName k))
      else if PyNum.is_number v then
        build_constants rest (PyDict.set constants k v)
      else
        match v with
        | PList arr =>
            _ <- check_array arr ;;
            build_constants rest (PyDict.set constants k v)
        | _ => Raise (ConfigError (ConstantNotNumberOrArray k))
        end
  end.

(** [arr_to_str(x) if isinstance(x, list) else str(x)] *)
Fixpoint arr_item (x : pyval) : string :=
  match x with
  | PList a => "[" ++ PyStr.join ", " (map arr_item a) ++ "]"
  | _ => py_str x
  end.

Definition arr_to_str (a : list pyval) : string :=
  "[" ++ PyStr.join ", " (map arr_item a) ++ "]".

(** [f"const {name} = {val_str};"] *)
Definition declaration (name val_str : string) : string :=
  "const " ++ name ++ " = " ++ val_str ++ ";".

(** The line of one constant. *)
Definition constant_line (item : string * pyval) : string :=
  let (cn, cv) := item in
  declaration cn (match cv with PList a => arr_to_str a | _ => py_str cv end).

(** The loop over the other top-level keys. *)
Fixpoint other_lines (items : list (string * pyval)) (constants : dict)
  : result (list string) :=
  match items with
  | [] => Ok []
  | (k, v) :: rest =>
      if negb (name_match k) then Raise (ConfigError (InvalidTopLevelName k))
      else
        val_str <- process_value v constants ;;
        lines <- other_lines rest constants ;;
        Ok (declaration k val_str :: lines)
  end.

(** [main] from the parsed document [data] to the lines written to the
    output file; nothing is written when an exception is raised. *)
Definition main (data : dict) : result (list string) :=
  match PyDict.get data "constants" with
  | None => Raise (ConfigError NoConstantsSection)
  | Some (PDict constants_section) =>
      constants <- build_constants constants_section [] ;;
      let data' := PyDict.del data "constants" in
      let output_lines := map constant_line constants in
      lines <- other_lines data' constants ;;
      Ok (output_lines ++ lines)%list
  | Some _ => Raise AttributeError
  end.

End Converter.

(** ** Expression trees and their postfix form *)

(** A well-formed expression: a leaf is a token together with what it
    stands for, an inner node is an operator applied to its operands. *)
Inductive expr : Type :=
| Lit (t : string) (z : Z)            (* the literal [t], which reads as [z] *)
| Const (name : string) (v : PyNum.num) (* the constant [name], bound to [v] *)
| Add (a b : expr)
| Sub (a b : expr)
| Mul (a b : expr)
| Max (a b : expr)
| Abs (a : expr).

(** The token sequence of an expression: operands first, left before
    right, then the operator. *)
Fixpoint postfix (e : expr) : list string :=
  match e with
  | Lit t _ => [t]
  | Const name _ => [name]
  | Add a b => postfix a ++ postfix b ++ ["+"]
  | Sub a b => postfix a ++ postfix b ++ ["-"]
  | Mul a b => postfix a ++ postfix b ++ ["*"]
  | Max a b => postfix a ++ postfix b ++ ["max"]
  | Abs a => postfix a ++ ["abs"]
  end.

(** One of the five operator tokens. *)
Definition is_operator (t : string) : bool :=
  is_arith_token t || String.eqb t "max" || String.eqb t "abs".

(** The leaves of [e] are what they claim to be under [constants]: a
    literal is not shadowed by a constant and parses as its value; a
    constant is not an operator token and is bound to its value. *)
Fixpoint well_formed (constants : dict) (e : expr) : Prop :=
  match e with
  | Lit t z => PyDict.get constants t = None /\ PyInt.parse t = Some z
  | Const name v =>
      is_operator name = false /\ PyDict.get constants name = Some (PyNum.to_val v)
  | Add a b | Sub a b | Mul a b | Max a b =>
      well_formed constants a /\ well_formed constants b
  | Abs a => well_formed constants a
  end.

(** The value of an expression by recursion on the tree, with the left
    subtree as left operand. *)
Fixpoint denote (e : expr) : result PyNum.num :=
  match e with
  | Lit _ z => Ok (PyNum.NInt z)
  | Const _ v => Ok v
  | Add a b => x <- denote a ;; y <- denote b ;; PyNum.add x y
  | Sub a b => x <- denote a ;; y <- denote b ;; PyNum.sub x y
  | Mul a b => x <- denote a ;; y <- denote b ;; PyNum.mul x y
  | Max a b => x <- denote a ;; y <- denote b ;; Ok (PyNum.max x y)
  | Abs a => x <- denote a ;; Ok (PyNum.abs x)
  end.

(** Every constant of [e] is an integer ([int] or [bool]). *)
Fixpoint integral (e : expr) : Prop :=
  match e with
  | Lit _ _ => True
  | Const _ v => exists z, PyNum.operand_of v = PyNum.OInt z
  | Add a b | Sub a b | Mul a b | Max a b => integral a /\ integral b
  | Abs a => integral a
  end.

(** The value of an integral expression in the integers. *)
Fixpoint exact (e : expr) : Z :=
  match e with
  | Lit _ z => z
  | Const _ v =>
      match PyNum.operand_of v with
      | PyNum.OInt z => z
      | PyNum.OFloat _ => 0
      end
  | Add a b => exact a + exact b
  | Sub a b => exact a - exact b
  | Mul a b => exact a * exact b
  | Max a b => Z.max (exact a) (exact b)
  | Abs a => Z.abs (exact a)
  end.

(** ** Predicates used in the statements *)

(** What the validation of [main] leaves in [constants]: numbers and
    arrays. *)
Definition validated (constants : dict) : Prop :=
  forall k v, PyDict.get constants k = Some v ->
              PyNum.is_number v = true \/ PyNum.is_list v = true.

(** No constant is a double. *)
Definition float_free (constants : dict) : Prop :=
  forall k f, PyDict.get constants k <> Some (PFloat f).

Definition not_float (v : pyval) : Prop := forall f, v <> PFloat f.

(** The three messages about an operand that is not a number. *)
Definition operand_type_error (m : config_msg) : bool :=
  match m with
  | ArithmeticOnlyNumbers | MaxOnlyNumbers | AbsOnlyNumbers => true
  | _ => false
  end.

(** What one token does to a stack of numbers. *)
Definition numeric_outcome (r : result stack) : Prop :=
  match r with
  | Ok st => Forall (fun v => PyNum.is_number v = true) st
  | Raise (ConfigError m) => operand_type_error m = false
  | Raise _ => True
  end.

(** What one token does to a stack without doubles. *)
Definition config_outcome (r : result stack) : Prop :=
  match r with
  | Ok st => Forall not_float st
  | Raise ex => exists m, ex = ConfigError m
  end.

(** A number, or an array of such values, to any depth; a number is what
    [isinstance(v, (int, float))] accepts. *)
Fixpoint numeric (v : pyval) : bool :=
  match v with
  | PList l => forallb numeric l
  | _ => PyNum.is_number v
  end.


(** The tokens of a list of expressions, the head of the list last. *)
Definition flatten (es : list expr) : list string :=
  List.concat (map postfix (rev es)).

(** [st] holds the values of the expressions [es], top first. *)
Definition represents (constants : dict) (es : list expr) (st : stack) : Prop :=
  Forall2 (fun e v => well_formed constants e /\
                      exists n, denote e = Ok n /\ v = PyNum.to_val n) es st.

(** Every key of the mapping matches the pattern of names. *)
Definition names_valid (constants : dict) : Prop :=
  forall k v, PyDict.get constants k = Some v -> name_match k = true.

(** ** Inputs of the counterexamples *)

(** Constants with a double and an integer beyond the range of doubles. *)
Definition float_constants : dict :=
  [("big", PInt (2 ^ 1024)); ("x", PFloat 1.5%float); ("y", PFloat 1e16%float)].

Definition big_plus_x : expr :=
  Add (Const "big" (PyNum.NInt (2 ^ 1024))) (Const "x" (PyNum.NFloat 1.5%float)).

Definition y_plus_one_minus_y : expr :=
  Sub (Add (Const "y" (PyNum.NFloat 1e16%float)) (Lit "1" 1))
      (Const "y" (PyNum.NFloat 1e16%float)).

(** ** Measures and shapes *)

(** What a token does to the depth of the stack when it succeeds: a binary
    operator removes one value, [abs] keeps the depth, an operand adds one. *)
Definition token_weight (t : string) : Z :=
  if is_arith_token t || String.eqb t "max" then -1
  else if String.eqb t "abs" then 0
  else 1.

Definition total_weight (tokens : list string) : Z :=
  fold_right (fun t acc => token_weight t + acc) 0 tokens.

(** Two mappings give the same answer for every token of a sequence. *)
Definition agree_on (tokens : list string) (c1 c2 : dict) : Prop :=
  forall t, In t tokens -> PyDict.get c1 t = PyDict.get c2 t.

(** The values that are not lists, at any depth, left to right. *)
Fixpoint leaves (v : pyval) : list pyval :=
  match v with
  | PList l => flat_map leaves l
  | _ => [v]
  end.

(** The shapes [process_value] has a rendering for: numbers, strings that
    pass its test, and arrays of such values. *)
Fixpoint renderable (v : pyval) : bool :=
  match v with
  | PList l => forallb renderable l
  | PStr s => PyStr.startswith "@(" s && PyStr.endswith ")" s
  | PBool _ | PInt _ | PFloat _ => true
  | PNone | PDict _ => false
  end.

(** A string of whitespace only. *)
Fixpoint blank (s : string) : bool :=
  match s with
  | EmptyString => true
  | String c rest => PyStr.isspace c && blank rest
  end.

(** A string of characters of [[a-z0-9_]] only. *)
Fixpoint name_chars (s : string) : bool :=
  match s with
  | EmptyString => true
  | String c rest => is_name_char c && name_chars rest
  end.

(** The keys of a dictionary, in order. *)
Definition keys (d : dict) : list string := map fst d.

(** The messages of the [raise] statements of [evaluate_postfix_expression]. *)
Definition raised_by_evaluate (m : config_msg) : bool :=
  match m with
  | NotEnoughOperands _ | ArithmeticOnlyNumbers | NotEnoughOperandsMax
  | MaxOnlyNumbers | NotEnoughOperandsAbs | AbsOnlyNumbers
  | CannotUseArray _ | UnknownToken _ | InvalidEvaluation _ => true
  | _ => false
  end.

(** The messages [process_value] can end with: its own and those of the
    evaluator. *)
Definition raised_by_process_value (m : config_msg) : bool :=
  match m with
  | DictNotAllowed | StringNotSupported _ | UnsupportedType _ => true
  | _ => raised_by_evaluate m
  end.

(** What [main] writes for an entry that is not the constants section: the
    name matches the pattern and the line declares the text of the value. *)
Definition entry_line (str_float : float -> string) (str_container : pyval -> string)
  (constants : dict) (entry : string * pyval) (line : string) : Prop :=
  name_match (fst entry) = true /\
  exists text,
    process_value str_float str_container (snd entry) constants = Ok text /\
    line = declaration (fst entry) text.

(** A rendering of doubles and containers for the instances at the end,
    none of which contains one. *)
Definition no_text {A} (x : A) : string := "".

(** * Properties *)

(** ** The result monad *)

Lemma bind_assoc {A B C} (r : result A) (f : A -> result B) (g : B -> result C) :
  (y <- (x <- r ;; f x) ;; g y) = (x <- r ;; y <- f x ;; g y).
Proof. destruct r; reflexivity. Qed.

Lemma bind_ok_r {A} (r : result A) : (x <- r ;; Ok x) = r.
Proof. destruct r; reflexivity. Qed.

(** ** The loop of the evaluator *)

Lemma eval_tokens_app constants st pre post :
  eval_tokens constants st (pre ++ post) =
  (st' <- eval_tokens constants st pre ;; eval_tokens constants st' post).
Proof.
  revert st. induction pre as [|t pre IH]; intros st; simpl.
  - reflexivity.
  - destruct (eval_token constants st t) as [st'|e]; simpl.
    + apply IH.
    + reflexivity.
Qed.

Lemma of_val_to_val n : PyNum.of_val (PyNum.to_val n) = Some n.
Proof. destruct n; reflexivity. Qed.

Lemma of_val_some v n : PyNum.of_val v = Some n -> v = PyNum.to_val n.
Proof. destruct v; simpl; intros H; inversion H; reflexivity. Qed.

Lemma is_operator_cases t :
  is_operator t = true ->
  t = "+" \/ t = "-" \/ t = "*" \/ t = "max" \/ t = "abs".
Proof.
  unfold is_operator, is_arith_token. intros H.
  repeat (apply orb_true_iff in H; destruct H as [H|H]);
    apply String.eqb_eq in H; auto.
Qed.

Lemma parse_operator t : is_operator t = true -> PyInt.parse t = None.
Proof.
  intros H. apply is_operator_cases in H.
  destruct H as [H|[H|[H|[H|H]]]]; subst; reflexivity.
Qed.

(** A token that is not an operator goes to the last branch. *)
Lemma eval_token_operand constants st t :
  is_operator t = false ->
  eval_token constants st t = eval_operand constants t st.
Proof.
  unfold is_operator, eval_token. intros H.
  apply orb_false_iff in H. destruct H as [H Habs].
  apply orb_false_iff in H. destruct H as [Harith Hmax].
  rewrite Harith, Hmax, Habs. reflexivity.
Qed.

Lemma eval_token_literal constants st t z :
  PyDict.get constants t = None -> PyInt.parse t = Some z ->
  eval_token constants st t = Ok (PInt z :: st).
Proof.
  intros Hget Hparse.
  rewrite eval_token_operand.
  - unfold eval_operand. rewrite Hget, Hparse. reflexivity.
  - destruct (is_operator t) eqn:Hop; [|reflexivity].
    apply parse_operator in Hop. congruence.
Qed.

Lemma eval_token_constant constants st name v :
  is_operator name = false ->
  PyDict.get constants name = Some (PyNum.to_val v) ->
  eval_token constants st name = Ok (PyNum.to_val v :: st).
Proof.
  intros Hop Hget. rewrite eval_token_operand by assumption.
  unfold eval_operand. rewrite Hget. destruct v; reflexivity.
Qed.

Lemma eval_token_add constants x y st :
  eval_token constants (PyNum.to_val y :: PyNum.to_val x :: st) "+" =
  (r <- PyNum.add x y ;; Ok (PyNum.to_val r :: st)).
Proof. cbn. rewrite !of_val_to_val. reflexivity. Qed.

Lemma eval_token_sub constants x y st :
  eval_token constants (PyNum.to_val y :: PyNum.to_val x :: st) "-" =
  (r <- PyNum.sub x y ;; Ok (PyNum.to_val r :: st)).
Proof. cbn. rewrite !of_val_to_val. reflexivity. Qed.

Lemma eval_token_mul constants x y st :
  eval_token constants (PyNum.to_val y :: PyNum.to_val x :: st) "*" =
  (r <- PyNum.mul x y ;; Ok (PyNum.to_val r :: st)).
Proof. cbn. rewrite !of_val_to_val. reflexivity. Qed.

Lemma eval_token_max constants x y st :
  eval_token constants (PyNum.to_val y :: PyNum.to_val x :: st) "max" =
  Ok (PyNum.to_val (PyNum.max x y) :: st).
Proof. cbn. rewrite !of_val_to_val. reflexivity. Qed.

Lemma eval_token_abs constants x st :
  eval_token constants (PyNum.to_val x :: st) "abs" =
  Ok (PyNum.to_val (PyNum.abs x) :: st).
Proof. cbn. rewrite !of_val_to_val. reflexivity. Qed.

(** A binary node: the tokens of [a], then those of [b], then the
    operator, which finds the value of [b] on top of that of [a]. *)
Lemma eval_binary constants a b op rest st
  (f : PyNum.num -> PyNum.num -> result PyNum.num) :
  (forall st rest, eval_tokens constants st (postfix a ++ rest) =
     (r <- denote a ;; eval_tokens constants (PyNum.to_val r :: st) rest)) ->
  (forall st rest, eval_tokens constants st (postfix b ++ rest) =
     (r <- denote b ;; eval_tokens constants (PyNum.to_val r :: st) rest)) ->
  (forall x y st, eval_token constants (PyNum.to_val y :: PyNum.to_val x :: st) op =
     (r <- f x y ;; Ok (PyNum.to_val r :: st))) ->
  eval_tokens constants st ((postfix a ++ postfix b ++ [op]) ++ rest) =
  (r <- (x <- denote a ;; y <- denote b ;; f x y) ;;
   eval_tokens constants (PyNum.to_val r :: st) rest).
Proof.
  intros IHa IHb Hop.
  rewrite <- !app_assoc. rewrite IHa.
  destruct (denote a) as [x|e]; [|reflexivity].
  cbn [bind]. rewrite IHb.
  destruct (denote b) as [y|e]; [|reflexivity].
  cbn [bind app eval_tokens]. rewrite Hop.
  destruct (f x y) as [r|e]; reflexivity.
Qed.

(** The evaluator run on the tokens of an expression computes its value
    and leaves it on top of the stack it started from. *)
Lemma eval_postfix constants e :
  well_formed constants e ->
  forall st rest,
    eval_tokens constants st (postfix e ++ rest) =
    (r <- denote e ;; eval_tokens constants (PyNum.to_val r :: st) rest).
Proof.
  induction e as [t z|name v|a IHa b IHb|a IHa b IHb|a IHa b IHb|a IHa b IHb|a IHa];
    simpl; intros Hwf st rest.
  - destruct Hwf as [Hget Hparse].
    rewrite (eval_token_literal _ _ _ _ Hget Hparse). reflexivity.
  - destruct Hwf as [Hop Hget].
    rewrite (eval_token_constant _ _ _ _ Hop Hget). reflexivity.
  - destruct Hwf as [Ha Hb].
    apply eval_binary; auto using eval_token_add.
  - destruct Hwf as [Ha Hb].
    apply eval_binary; auto using eval_token_sub.
  - destruct Hwf as [Ha Hb].
    apply eval_binary; auto using eval_token_mul.
  - destruct Hwf as [Ha Hb].
    apply (eval_binary constants a b "max" rest st
             (fun x y => Ok (PyNum.max x y))); auto.
    intros x y st0. rewrite eval_token_max. reflexivity.
  - rewrite <- app_assoc. rewrite (IHa Hwf).
    destruct (denote a) as [x|e]; [|reflexivity].
    cbn [bind app eval_tokens]. rewrite eval_token_abs. reflexivity.
Qed.

Lemma evaluate_postfix constants e :
  well_formed constants e ->
  evaluate_postfix_expression (postfix e) constants =
  (r <- denote e ;; Ok (PyNum.to_val r)).
Proof.
  intros Hwf. unfold evaluate_postfix_expression.
  rewrite <- (app_nil_r (postfix e)).
  rewrite (eval_postfix constants e Hwf).
  destruct (denote e); reflexivity.
Qed.

(** On integers the operators are the mathematical ones. *)
Lemma denote_integral e :
  integral e ->
  exists r, denote e = Ok r /\ PyNum.operand_of r = PyNum.OInt (exact e).
Proof.
  induction e as [t z|name v|a IHa b IHb|a IHa b IHb|a IHa b IHb|a IHa b IHb|a IHa];
    simpl; intros Hint.
  - eexists; split; reflexivity.
  - destruct Hint as [z Hz]. exists v. rewrite Hz. auto.
  - destruct Hint as [Ha Hb].
    destruct (IHa Ha) as (x & -> & Hx). destruct (IHb Hb) as (y & -> & Hy).
    simpl. unfold PyNum.add, PyNum.arith. rewrite Hx, Hy.
    eexists; split; reflexivity.
  - destruct Hint as [Ha Hb].
    destruct (IHa Ha) as (x & -> & Hx). destruct (IHb Hb) as (y & -> & Hy).
    simpl. unfold PyNum.sub, PyNum.arith. rewrite Hx, Hy.
    eexists; split; reflexivity.
  - destruct Hint as [Ha Hb].
    destruct (IHa Ha) as (x & -> & Hx). destruct (IHb Hb) as (y & -> & Hy).
    simpl. unfold PyNum.mul, PyNum.arith. rewrite Hx, Hy.
    eexists; split; reflexivity.
  - destruct Hint as [Ha Hb].
    destruct (IHa Ha) as (x & -> & Hx). destruct (IHb Hb) as (y & -> & Hy).
    simpl. eexists; split; [reflexivity|].
    unfold PyNum.max, PyNum.gt. rewrite Hx, Hy.
    destruct (Z.ltb_spec (exact a) (exact b)).
    + rewrite Hy. f_equal. lia.
    + rewrite Hx. f_equal. lia.
  - destruct (IHa Hint) as (x & -> & Hx).
    simpl. eexists; split; [reflexivity|].
    unfold PyNum.abs. rewrite Hx. reflexivity.
Qed.

(** A well-formed expression can only fail in the conversion of an integer
    operand to a double. *)
Lemma arith_raises zop fop x y ex :
  PyNum.arith zop fop x y = Raise ex -> ex = OverflowError.
Proof.
  unfold PyNum.arith, PyNum.float_of_int.
  destruct (PyNum.operand_of x) as [a|f], (PyNum.operand_of y) as [b|g];
    simpl; try discriminate.
  - destruct (PrimFloat.is_infinity (PyNum.round_to_float a)); simpl;
      intros H; inversion H; reflexivity.
  - destruct (PrimFloat.is_infinity (PyNum.round_to_float b)); simpl;
      intros H; inversion H; reflexivity.
Qed.

Lemma denote_raises e ex : denote e = Raise ex -> ex = OverflowError.
Proof.
  induction e as [t z|name v|a IHa b IHb|a IHa b IHb|a IHa b IHb|a IHa b IHb|a IHa];
    simpl; try discriminate;
    destruct (denote a) as [x|ea]; simpl; auto;
    try (destruct (denote b) as [y|eb]; simpl; auto);
    try discriminate;
    apply arith_raises.
Qed.

(** ** C1: the value of a well-formed expression *)

(** C1, counterexample. With floating-point constants a well-formed
    sequence need not return the mathematical result, in two ways. The tokens [big x +] are well formed, and the evaluator raises
    [OverflowError] instead of returning a Number. The tokens [y 1 + y -]
    are well formed, [y] is exactly the integer 10^16, and the evaluator
    returns exactly zero, where the mathematical value of
    (10^16 + 1) - 10^16 is 1. *)
Lemma evaluate_float_counterexample :
  (well_formed float_constants big_plus_x /\
   postfix big_plus_x = ["big"; "x"; "+"] /\
   evaluate_postfix_expression ["big"; "x"; "+"] float_constants = Raise OverflowError)
  /\
  (well_formed float_constants y_plus_one_minus_y /\
   postfix y_plus_one_minus_y = ["y"; "1"; "+"; "y"; "-"] /\
   PyNum.compare_int_float (10 ^ 16) 1e16%float = Some Eq /\
   (10 ^ 16 + 1) - 10 ^ 16 = 1 /\
   exists r,
     evaluate_postfix_expression ["y"; "1"; "+"; "y"; "-"] float_constants
       = Ok (PFloat r) /\
     PyNum.compare_int_float 0 r = Some Eq).
Proof.
  split.
  - repeat split; vm_compute; reflexivity.
  - repeat split; try (vm_compute; reflexivity).
    exists 0%float. split; vm_compute; reflexivity.
Qed.

(** C1, amended. For every well-formed postfix token sequence over integer
    literals, defined scalar constants and the operators [+ - * max abs],
    [evaluate] computes the value of the expression tree with Python's
    numeric operators, each binary operator taking the second-from-top stack
    value as left operand [a] and the top value as right operand [b]. When every
    constant used is an integer, it returns the single Number equal to the
    exact mathematical result, as in the five examples. Otherwise the
    operations are those of doubles, and the only possible failure is
    [OverflowError]. *)
Theorem evaluate_postfix_value constants e :
  well_formed constants e ->
  evaluate_postfix_expression (postfix e) constants
    = (r <- denote e ;; Ok (PyNum.to_val r))
  /\ (integral e ->
      exists r,
        evaluate_postfix_expression (postfix e) constants = Ok (PyNum.to_val r)
        /\ PyNum.operand_of r = PyNum.OInt (exact e))
  /\ (forall ex,
        evaluate_postfix_expression (postfix e) constants = Raise ex ->
        ex = OverflowError)
  /\ (forall a b rest,
        eval_token constants (PyNum.to_val b :: PyNum.to_val a :: rest) "+"
          = (r <- PyNum.add a b ;; Ok (PyNum.to_val r :: rest)) /\
        eval_token constants (PyNum.to_val b :: PyNum.to_val a :: rest) "-"
          = (r <- PyNum.sub a b ;; Ok (PyNum.to_val r :: rest)) /\
        eval_token constants (PyNum.to_val b :: PyNum.to_val a :: rest) "*"
          = (r <- PyNum.mul a b ;; Ok (PyNum.to_val r :: rest)) /\
        eval_token constants (PyNum.to_val b :: PyNum.to_val a :: rest) "max"
          = Ok (PyNum.to_val (PyNum.max a b) :: rest))
  /\ evaluate_postfix_expression ["3"; "4"; "+"] [] = Ok (PInt 7)
  /\ evaluate_postfix_expression ["5"; "3"; "-"] [] = Ok (PInt 2)
  /\ evaluate_postfix_expression ["2"; "3"; "max"] [] = Ok (PInt 3)
  /\ evaluate_postfix_expression ["-4"; "abs"] [] = Ok (PInt 4)
  /\ evaluate_postfix_expression ["x"; "2"; "*"] [("x", PInt 10)] = Ok (PInt 20).
Proof.
  intros Hwf. pose proof (evaluate_postfix constants e Hwf) as Heval.
  split; [exact Heval|]. split; [|split].
  - intros Hint. destruct (denote_integral e Hint) as (r & Hr & Hop).
    exists r. rewrite Heval, Hr. auto.
  - intros ex. rewrite Heval.
    destruct (denote e) as [r|e'] eqn:Hd; simpl; [discriminate|].
    intros H. inversion H; subst. exact (denote_raises e ex Hd).
  - split; [|repeat split].
    intros a b rest.
    rewrite eval_token_add, eval_token_sub, eval_token_mul, eval_token_max.
    repeat split.
Qed.

Lemma evaluate_postfix_value_witness :
  well_formed [("x", PInt 10)] (Mul (Const "x" (PyNum.NInt 10)) (Lit "2" 2)) /\
  exists r,
    evaluate_postfix_expression ["x"; "2"; "*"] [("x", PInt 10)]
      = Ok (PyNum.to_val r)
    /\ PyNum.operand_of r = PyNum.OInt (10 * 2).
Proof.
  assert (Hwf : well_formed [("x", PInt 10)]
                  (Mul (Const "x" (PyNum.NInt 10)) (Lit "2" 2))).
  { simpl. repeat split; reflexivity. }
  split; [exact Hwf|].
  destruct (evaluate_postfix_value _ _ Hwf) as (_ & Hexact & _).
  apply Hexact. simpl. split; [exists 10; reflexivity | exact I].
Defined.

(** ** Exceptions raised by one token *)






(** ** Invariants of the evaluation stack *)

Lemma is_number_to_val n : PyNum.is_number (PyNum.to_val n) = true.
Proof. unfold PyNum.is_number. rewrite of_val_to_val. reflexivity. Qed.

Lemma is_number_of_val v :
  PyNum.is_number v = true -> exists n, PyNum.of_val v = Some n.
Proof.
  unfold PyNum.is_number. destruct (PyNum.of_val v) as [n|]; [eauto|discriminate].
Qed.

Lemma is_number_not_list v : PyNum.is_number v = true -> PyNum.is_list v = false.
Proof. destruct v; simpl; auto; discriminate. Qed.

Lemma numeric_outcome_push (r : result PyNum.num) rest :
  Forall (fun v => PyNum.is_number v = true) rest ->
  (forall ex, r = Raise ex -> ex = OverflowError) ->
  numeric_outcome (x <- r ;; Ok (PyNum.to_val x :: rest)).
Proof.
  intros Hrest Hex. destruct r as [x|ex]; simpl.
  - constructor; [apply is_number_to_val|assumption].
  - rewrite (Hex ex eq_refl). exact I.
Qed.

Lemma eval_token_numeric constants st t :
  validated constants ->
  Forall (fun v => PyNum.is_number v = true) st ->
  numeric_outcome (eval_token constants st t).
Proof.
  intros Hval Hst. unfold eval_token.
  destruct (is_arith_token t).
  { destruct st as [|b [|a rest]]; try reflexivity.
    inversion Hst as [|? ? Hb Hst']; subst.
    inversion Hst' as [|? ? Ha Hrest]; subst.
    destruct (is_number_of_val _ Ha) as [x Hx].
    destruct (is_number_of_val _ Hb) as [y Hy].
    unfold eval_arith. rewrite Hx, Hy.
    destruct (String.eqb t "+");
      [apply numeric_outcome_push; [assumption|intros ex; apply arith_raises]|].
    destruct (String.eqb t "-");
      [apply numeric_outcome_push; [assumption|intros ex; apply arith_raises]|].
    destruct (String.eqb t "*");
      [apply numeric_outcome_push; [assumption|intros ex; apply arith_raises]|].
    exact Hrest. }
  destruct (String.eqb t "max").
  { destruct st as [|b [|a rest]]; try reflexivity.
    inversion Hst as [|? ? Hb Hst']; subst.
    inversion Hst' as [|? ? Ha Hrest]; subst.
    destruct (is_number_of_val _ Ha) as [x Hx].
    destruct (is_number_of_val _ Hb) as [y Hy].
    unfold eval_max. rewrite Hx, Hy.
    constructor; [apply is_number_to_val|assumption]. }
  destruct (String.eqb t "abs").
  { destruct st as [|a rest]; try reflexivity.
    inversion Hst as [|? ? Ha Hrest]; subst.
    destruct (is_number_of_val _ Ha) as [x Hx].
    unfold eval_abs. rewrite Hx.
    constructor; [apply is_number_to_val|assumption]. }
  unfold eval_operand.
  destruct (PyDict.get constants t) as [val|] eqn:Hget.
  - destruct (Hval _ _ Hget) as [Hnum|Hlist].
    + rewrite (is_number_not_list _ Hnum). constructor; assumption.
    + rewrite Hlist. reflexivity.
  - destruct (PyInt.parse t); [|reflexivity].
    constructor; [reflexivity|assumption].
Qed.

(** Any run of the loop from a stack of numbers ends on a stack of numbers
    or raises something else than the three operand-type errors. *)
Lemma eval_tokens_numeric constants tokens :
  validated constants ->
  forall st,
    Forall (fun v => PyNum.is_number v = true) st ->
    numeric_outcome (eval_tokens constants st tokens).
Proof.
  intros Hval. induction tokens as [|t rest IH]; intros st Hst; simpl.
  - exact Hst.
  - pose proof (eval_token_numeric constants st t Hval Hst) as Ht.
    destruct (eval_token constants st t) as [st'|ex]; simpl.
    + apply IH, Ht.
    + exact Ht.
Qed.

(** ** C9: the operand-type errors are unreachable *)

(** C9. When every value of the constants mapping is a Number or an Array,
    every value on the evaluation stack, after any number of tokens, is a
    Number, and [evaluate] never raises one of the three errors
    "... allowed only on numbers". *)
Theorem evaluate_operands_are_numbers constants (tokens : list string) :
  validated constants ->
  (forall (pre post : list string) st,
     tokens = (pre ++ post)%list ->
     eval_tokens constants [] pre = Ok st ->
     Forall (fun v => PyNum.is_number v = true) st)
  /\ (forall m,
        evaluate_postfix_expression tokens constants = Raise (ConfigError m) ->
        operand_type_error m = false).
Proof.
  intros Hval. split.
  - intros pre post st _ Hpre.
    pose proof (eval_tokens_numeric constants pre Hval [] (Forall_nil _)) as H.
    rewrite Hpre in H. exact H.
  - intros m. unfold evaluate_postfix_expression.
    pose proof (eval_tokens_numeric constants tokens Hval [] (Forall_nil _)) as H.
    destruct (eval_tokens constants [] tokens) as [st|ex]; simpl.
    + destruct st as [|v [|w rest]]; intros Heq; inversion Heq; reflexivity.
    + intros Heq. inversion Heq; subst. exact H.
Qed.

Lemma validated_example :
  validated [("x", PInt 10); ("arr", PList [PInt 1; PInt 2])].
Proof.
  intros k v. simpl.
  destruct (String.eqb k "x"); [intros H; inversion H; auto|].
  destruct (String.eqb k "arr"); [intros H; inversion H; auto|].
  discriminate.
Defined.

Lemma evaluate_operands_are_numbers_witness :
  validated [("x", PInt 10); ("arr", PList [PInt 1; PInt 2])] /\
  forall m,
    evaluate_postfix_expression ["x"; "abs"; "arr"]
      [("x", PInt 10); ("arr", PList [PInt 1; PInt 2])] = Raise (ConfigError m) ->
    operand_type_error m = false.
Proof.
  split; [exact validated_example|].
  exact (proj2 (evaluate_operands_are_numbers _ ["x"; "abs"; "arr"] validated_example)).
Defined.

(** ** Failures are [ConfigError] unless a double is involved *)

Lemma not_float_operand n :
  not_float (PyNum.to_val n) -> exists z, PyNum.operand_of n = PyNum.OInt z.
Proof.
  destruct n as [b|z|f]; simpl; intros H; eauto.
  exfalso. exact (H f eq_refl).
Qed.

Lemma not_float_int z : not_float (PInt z).
Proof. intros f; discriminate. Qed.

Lemma arith_integers zop fop x y a b :
  PyNum.operand_of x = PyNum.OInt a -> PyNum.operand_of y = PyNum.OInt b ->
  PyNum.arith zop fop x y = Ok (PyNum.NInt (zop a b)).
Proof. unfold PyNum.arith. intros -> ->. reflexivity. Qed.

Lemma eval_token_float_free constants st t :
  float_free constants -> Forall not_float st ->
  config_outcome (eval_token constants st t).
Proof.
  intros Hfree Hst. unfold eval_token.
  destruct (is_arith_token t).
  { destruct st as [|b [|a rest]]; simpl; eauto.
    inversion Hst as [|? ? Hb Hst']; subst.
    inversion Hst' as [|? ? Ha Hrest]; subst.
    destruct (PyNum.of_val a) as [x|] eqn:Hx; [|simpl; eauto].
    destruct (PyNum.of_val b) as [y|] eqn:Hy; [|simpl; eauto].
    apply of_val_some in Hx, Hy. subst a b.
    destruct (not_float_operand _ Ha) as [za Hza].
    destruct (not_float_operand _ Hb) as [zb Hzb].
    unfold PyNum.add, PyNum.sub, PyNum.mul.
    rewrite !(arith_integers _ _ _ _ _ _ Hza Hzb).
    destruct (String.eqb t "+"); [simpl; constructor; auto using not_float_int|].
    destruct (String.eqb t "-"); [simpl; constructor; auto using not_float_int|].
    destruct (String.eqb t "*"); [simpl; constructor; auto using not_float_int|].
    exact Hrest. }
  destruct (String.eqb t "max").
  { destruct st as [|b [|a rest]]; simpl; eauto.
    inversion Hst as [|? ? Hb Hst']; subst.
    inversion Hst' as [|? ? Ha Hrest]; subst.
    destruct (PyNum.of_val a) as [x|] eqn:Hx; [|simpl; eauto].
    destruct (PyNum.of_val b) as [y|] eqn:Hy; [|simpl; eauto].
    apply of_val_some in Hx, Hy. subst a b.
    simpl. constructor; [|assumption].
    unfold PyNum.max. destruct (PyNum.gt y x); assumption. }
  destruct (String.eqb t "abs").
  { destruct st as [|a rest]; simpl; eauto.
    inversion Hst as [|? ? Ha Hrest]; subst.
    destruct (PyNum.of_val a) as [x|] eqn:Hx; [|simpl; eauto].
    apply of_val_some in Hx. subst a.
    destruct (not_float_operand _ Ha) as [za Hza].
    unfold PyNum.abs. rewrite Hza. simpl.
    constructor; auto using not_float_int. }
  unfold eval_operand.
  destruct (PyDict.get constants t) as [val|] eqn:Hget.
  - destruct (PyNum.is_list val); simpl; eauto.
    constructor; [|assumption].
    intros f ->. exact (Hfree _ _ Hget).
  - destruct (PyInt.parse t); simpl; eauto.
    constructor; auto using not_float_int.
Qed.

Lemma eval_tokens_float_free constants tokens :
  float_free constants ->
  forall st, Forall not_float st ->
             config_outcome (eval_tokens constants st tokens).
Proof.
  intros Hfree. induction tokens as [|t rest IH]; intros st Hst; simpl.
  - exact Hst.
  - pose proof (eval_token_float_free constants st t Hfree Hst) as Ht.
    destruct (eval_token constants st t) as [st'|ex]; simpl.
    + apply IH, Ht.
    + exact Ht.
Qed.


(** ** Only well-formed sequences evaluate *)

Lemma flatten_cons e es : flatten (e :: es) = (flatten es ++ postfix e)%list.
Proof.
  unfold flatten. simpl. rewrite map_app, concat_app. simpl.
  rewrite app_nil_r. reflexivity.
Qed.

Lemma represents_push constants node es r rest :
  represents constants es rest ->
  well_formed constants node -> denote node = Ok r ->
  represents constants (node :: es) (PyNum.to_val r :: rest).
Proof.
  intros Hrest Hwf Hden. constructor; [|exact Hrest].
  split; [exact Hwf|]. exists r. auto.
Qed.

Lemma eval_token_decompile constants es st t st' :
  validated constants ->
  represents constants es st ->
  eval_token constants st t = Ok st' ->
  exists es', represents constants es' st' /\
              flatten es' = (flatten es ++ [t])%list.
Proof.
  intros Hval Hrep. unfold eval_token.
  destruct (is_arith_token t) eqn:Harith.
  { destruct Hrep as [|eb b es1 st1 (Hwb & nb & Hdb & ->) Hrep1]; [discriminate|].
    destruct Hrep1 as [|ea a es0 rest (Hwa & na & Hda & ->) Hrest]; [discriminate|].
    unfold eval_arith. rewrite !of_val_to_val.
    destruct (String.eqb t "+") eqn:Hplus.
    { apply String.eqb_eq in Hplus. subst t.
      destruct (PyNum.add na nb) as [r|ex] eqn:Hop; [|discriminate].
      intros H. inversion H; subst. exists (Add ea eb :: es0). split.
      - apply represents_push; simpl; auto.
        rewrite Hda, Hdb. exact Hop.
      - rewrite !flatten_cons. simpl. rewrite <- !app_assoc. reflexivity. }
    destruct (String.eqb t "-") eqn:Hminus.
    { apply String.eqb_eq in Hminus. subst t.
      destruct (PyNum.sub na nb) as [r|ex] eqn:Hop; [|discriminate].
      intros H. inversion H; subst. exists (Sub ea eb :: es0). split.
      - apply represents_push; simpl; auto.
        rewrite Hda, Hdb. exact Hop.
      - rewrite !flatten_cons. simpl. rewrite <- !app_assoc. reflexivity. }
    destruct (String.eqb t "*") eqn:Htimes.
    { apply String.eqb_eq in Htimes. subst t.
      destruct (PyNum.mul na nb) as [r|ex] eqn:Hop; [|discriminate].
      intros H. inversion H; subst. exists (Mul ea eb :: es0). split.
      - apply represents_push; simpl; auto.
        rewrite Hda, Hdb. exact Hop.
      - rewrite !flatten_cons. simpl. rewrite <- !app_assoc. reflexivity. }
    unfold is_arith_token in Harith. rewrite Hplus, Hminus, Htimes in Harith.
    discriminate. }
  destruct (String.eqb t "max") eqn:Hmax.
  { apply String.eqb_eq in Hmax. subst t.
    destruct Hrep as [|eb b es1 st1 (Hwb & nb & Hdb & ->) Hrep1]; [discriminate|].
    destruct Hrep1 as [|ea a es0 rest (Hwa & na & Hda & ->) Hrest]; [discriminate|].
    unfold eval_max. rewrite !of_val_to_val.
    intros H. inversion H; subst. exists (Max ea eb :: es0). split.
    - apply represents_push; simpl; auto.
      rewrite Hda, Hdb. reflexivity.
    - rewrite !flatten_cons. simpl. rewrite <- !app_assoc. reflexivity. }
  destruct (String.eqb t "abs") eqn:Habs.
  { apply String.eqb_eq in Habs. subst t.
    destruct Hrep as [|ea a es0 rest (Hwa & na & Hda & ->) Hrest]; [discriminate|].
    unfold eval_abs. rewrite of_val_to_val.
    intros H. inversion H; subst. exists (Abs ea :: es0). split.
    - constructor; [|exact Hrest]. split; [exact Hwa|].
      exists (PyNum.abs na). simpl. rewrite Hda. auto.
    - rewrite !flatten_cons. simpl. rewrite <- !app_assoc. reflexivity. }
  assert (Hop : is_operator t = false).
  { unfold is_operator. rewrite Harith, Hmax, Habs. reflexivity. }
  unfold eval_operand.
  destruct (PyDict.get constants t) as [val|] eqn:Hget.
  - destruct (PyNum.is_list val) eqn:Hlist; [discriminate|].
    destruct (Hval _ _ Hget) as [Hnum|Hl]; [|congruence].
    destruct (is_number_of_val _ Hnum) as [n Hn].
    apply of_val_some in Hn. subst val.
    intros H. inversion H; subst. exists (Const t n :: es). split.
    + constructor; [|exact Hrep]. split; [simpl; auto|]. exists n. auto.
    + apply flatten_cons.
  - destruct (PyInt.parse t) as [z|] eqn:Hparse; [|discriminate].
    intros H. inversion H; subst. exists (Lit t z :: es). split.
    + constructor; [|exact Hrep]. split; [simpl; auto|].
      exists (PyNum.NInt z). auto.
    + apply flatten_cons.
Qed.

Lemma eval_tokens_decompile constants tokens :
  validated constants ->
  forall es st st',
    represents constants es st ->
    eval_tokens constants st tokens = Ok st' ->
    exists es', represents constants es' st' /\
                flatten es' = (flatten es ++ tokens)%list.
Proof.
  intros Hval. induction tokens as [|t rest IH]; intros es st st' Hrep; simpl.
  - intros H. inversion H; subst. exists es. rewrite app_nil_r. auto.
  - destruct (eval_token constants st t) as [st1|ex] eqn:Ht; [|discriminate].
    simpl. intros Hrest.
    destruct (eval_token_decompile _ _ _ _ _ Hval Hrep Ht) as (es1 & Hrep1 & Hflat1).
    destruct (IH _ _ _ Hrep1 Hrest) as (es' & Hrep' & Hflat').
    exists es'. split; [exact Hrep'|].
    rewrite Hflat', Hflat1, <- app_assoc. reflexivity.
Qed.

(** When constants are numbers or arrays, a call that returns a value was
    made on the tokens of a well-formed expression, and returns its value. *)
Lemma evaluate_ok_well_formed constants tokens v :
  validated constants ->
  evaluate_postfix_expression tokens constants = Ok v ->
  exists e, tokens = postfix e /\ well_formed constants e /\
            exists n, denote e = Ok n /\ v = PyNum.to_val n.
Proof.
  intros Hval. unfold evaluate_postfix_expression.
  destruct (eval_tokens constants [] tokens) as [st|ex] eqn:Hrun; [|discriminate].
  simpl. destruct st as [|w [|w' rest]]; try discriminate.
  intros H. inversion H; subst.
  destruct (eval_tokens_decompile _ _ Hval [] [] [v] (Forall2_nil _) Hrun)
    as (es & Hrep & Hflat).
  inversion Hrep as [|e v0 es0 st0 (Hwf & n & Hden & Hv) Hnil]; subst.
  inversion Hnil; subst.
  exists e. rewrite flatten_cons in Hflat. simpl in Hflat.
  split; [symmetry; exact Hflat|]. split; [exact Hwf|]. exists n. auto.
Qed.

Lemma well_formed_integral constants e :
  float_free constants -> well_formed constants e -> integral e.
Proof.
  intros Hfree. induction e; simpl; intros Hwf; try tauto.
  destruct Hwf as [_ Hget]. apply not_float_operand.
  intros f Hf. rewrite Hf in Hget. exact (Hfree _ _ Hget).
Qed.


(** With constants that are integers or arrays, the sequences on which
    [evaluate] returns a value are exactly the well-formed ones. *)
Lemma evaluate_ok_iff constants tokens :
  validated constants -> float_free constants ->
  (exists v, evaluate_postfix_expression tokens constants = Ok v) <->
  (exists e, tokens = postfix e /\ well_formed constants e).
Proof.
  intros Hval Hfree. split.
  - intros [v Hv].
    destruct (evaluate_ok_well_formed _ _ _ Hval Hv) as (e & He & Hwf & _).
    eauto.
  - intros (e & -> & Hwf).
    pose proof (well_formed_integral _ _ Hfree Hwf) as Hint.
    destruct (denote_integral e Hint) as (r & Hr & _).
    exists (PyNum.to_val r). rewrite (evaluate_postfix _ _ Hwf), Hr. reflexivity.
Qed.

(** ** C2: malformed token sequences *)



(** ** C3: a constant bound to an array *)





(** ** C7: the priority of the token classes *)



(** ** Induction on values *)

(** The induction principle of [pyval] with a hypothesis for the elements
    of a list. *)
Lemma pyval_list_ind (P : pyval -> Prop) :
  P PNone ->
  (forall b, P (PBool b)) ->
  (forall z, P (PInt z)) ->
  (forall f, P (PFloat f)) ->
  (forall s, P (PStr s)) ->
  (forall l, Forall P l -> P (PList l)) ->
  (forall d, P (PDict d)) ->
  forall v, P v.
Proof.
  intros HNone HBool HInt HFloat HStr HList HDict.
  fix IH 1. intros v. destruct v as [|b|z|f|s|l|d].
  - exact HNone.
  - apply HBool.
  - apply HInt.
  - apply HFloat.
  - apply HStr.
  - apply HList. induction l as [|x l IHl]; constructor.
    + apply IH.
    + exact IHl.
  - apply HDict.
Qed.

Lemma join_cons sep s t rest :
  PyStr.join sep (s :: t :: rest) = s ++ sep ++ PyStr.join sep (t :: rest).
Proof. reflexivity. Qed.

Lemma map_result_ok {A B} (f : A -> result B) (g : A -> B) l :
  Forall (fun x => f x = Ok (g x)) l -> map_result f l = Ok (map g l).
Proof.
  induction 1 as [|x l Hx Hl IH]; simpl.
  - reflexivity.
  - rewrite Hx. simpl. rewrite IH. reflexivity.
Qed.

Lemma map_result_forall2 {A B} (f : A -> result B) l ys :
  Forall2 (fun x y => f x = Ok y) l ys -> map_result f l = Ok ys.
Proof.
  induction 1 as [|x y l ys Hx Hl IH]; simpl.
  - reflexivity.
  - rewrite Hx. simpl. rewrite IH. reflexivity.
Qed.

Lemma map_result_raise {A B} (f : A -> result B) pre x post ys ex :
  Forall2 (fun x y => f x = Ok y) pre ys -> f x = Raise ex ->
  map_result f (pre ++ x :: post) = Raise ex.
Proof.
  induction 1 as [|x' y l ys' Hx Hl IH]; simpl; intros Hraise.
  - rewrite Hraise. reflexivity.
  - rewrite Hx. simpl. rewrite (IH Hraise). reflexivity.
Qed.

(** ** The decimal text of an integer *)








(** ** Strings of the form [@(...)] *)

Lemma startswith_expr s :
  PyStr.startswith "@(" s = true <-> exists rest, s = "@(" ++ rest.
Proof.
  unfold PyStr.startswith. rewrite prefix_correct. split.
  - destruct s as [|c1 [|c2 rest]]; simpl; try discriminate.
    intros H. injection H as -> -> _. exists rest. reflexivity.
  - intros [rest ->]. simpl. destruct rest; reflexivity.
Qed.

(** [endswith] by recursion on the string. *)
Lemma endswith_cons p c s :
  PyStr.endswith (String p "") (String c s) =
  match s with
  | EmptyString => Ascii.eqb c p
  | String _ _ => PyStr.endswith (String p "") s
  end.
Proof.
  unfold PyStr.endswith. destruct s as [|c' s'].
  - simpl. destruct (Ascii.eqb c p); reflexivity.
  - cbn [String.length Nat.leb Nat.sub andb].
    rewrite Nat.sub_0_r. reflexivity.
Qed.

Lemma endswith_append p body :
  PyStr.endswith (String p "") (body ++ String p "") = true.
Proof.
  induction body as [|c body IH].
  - simpl. rewrite endswith_cons. apply Ascii.eqb_refl.
  - cbn [String.append]. rewrite endswith_cons.
    destruct (body ++ String p "") eqn:Heq; [|exact IH].
    destruct body; discriminate.
Qed.

Lemma endswith_inv p s :
  PyStr.endswith (String p "") s = true -> exists body, s = body ++ String p "".
Proof.
  induction s as [|c s IH].
  - discriminate.
  - rewrite endswith_cons. destruct s as [|c' s'].
    + intros H. apply Ascii.eqb_eq in H. subst. exists "". reflexivity.
    + intros H. destruct (IH H) as [body Hbody].
      exists (String c body). cbn [String.append]. rewrite <- Hbody. reflexivity.
Qed.

Lemma length_append s t : String.length (s ++ t) = (String.length s + String.length t)%nat.
Proof. induction s as [|c s IH]; simpl; [reflexivity|rewrite IH; reflexivity]. Qed.

Lemma substring_append s t : substring 0 (String.length s) (s ++ t) = s.
Proof.
  induction s as [|c s IH]; simpl.
  - destruct t; reflexivity.
  - rewrite IH. reflexivity.
Qed.

(** [val[2:-1]] on a string of the form [@(body)] is [body]. *)
Lemma slice_expr body : PyStr.slice ("@(" ++ body ++ ")") 2 (-1) = body.
Proof.
  unfold PyStr.slice.
  assert (Hlen : String.length ("@(" ++ body ++ ")") = (String.length body + 3)%nat).
  { cbn [String.append String.length]. rewrite length_append. simpl. lia. }
  rewrite Hlen.
  assert (Ha : PyStr.slice_index 2 (String.length body + 3) = 2%nat).
  { unfold PyStr.slice_index. change (2 <? 0) with false. cbv iota. lia. }
  assert (Hb : PyStr.slice_index (-1) (String.length body + 3)
               = (String.length body + 2)%nat).
  { unfold PyStr.slice_index. change (-1 <? 0) with true. cbv iota. lia. }
  rewrite Ha, Hb.
  replace (String.length body + 2 - 2)%nat with (String.length body) by lia.
  cbn [String.append substring]. apply substring_append.
Qed.

(** The test of [process_value] on a string holds exactly of the strings
    [@(body)]. *)
Lemma expr_string s :
  PyStr.startswith "@(" s && PyStr.endswith ")" s = true <->
  exists body, s = "@(" ++ body ++ ")".
Proof.
  split.
  - intros H. apply andb_true_iff in H. destruct H as [Hstart Hend].
    apply startswith_expr in Hstart. destruct Hstart as [rest ->].
    cbn [String.append] in Hend. rewrite !endswith_cons in Hend.
    destruct rest as [|c rest]; [discriminate|].
    apply endswith_inv in Hend. destruct Hend as [body Hbody].
    exists body. rewrite Hbody. reflexivity.
  - intros [body ->]. apply andb_true_iff. split.
    + apply startswith_expr. exists (body ++ ")"). reflexivity.
    + cbn [String.append]. rewrite !endswith_cons.
      destruct (body ++ ")") eqn:Heq.
      * destruct body; discriminate.
      * rewrite <- Heq. apply endswith_append.
Qed.

(** ** Tokens *)


Lemma split_cons c rest :
  PyStr.split (String c rest) =
  if PyStr.isspace c then PyStr.split rest
  else
    match rest with
    | EmptyString => [String c EmptyString]
    | String c' _ =>
        if PyStr.isspace c' then String c EmptyString :: PyStr.split rest
        else
          match PyStr.split rest with
          | w :: ws => String c w :: ws
          | [] => [String c EmptyString]
          end
    end.
Proof. reflexivity. Qed.

Lemma split_lstrip s : PyStr.split (PyStr.lstrip s) = PyStr.split s.
Proof.
  induction s as [|c rest IH]; [reflexivity|].
  cbn [PyStr.lstrip]. destruct (PyStr.isspace c) eqn:Hc.
  - rewrite IH. simpl. rewrite Hc. reflexivity.
  - reflexivity.
Qed.

Lemma rstrip_empty_split s : PyStr.rstrip s = "" -> PyStr.split s = [].
Proof.
  induction s as [|c rest IH]; [reflexivity|].
  simpl. destruct (PyStr.rstrip rest) eqn:Hr; [|discriminate].
  destruct (PyStr.isspace c); [|discriminate].
  intros _. apply IH. reflexivity.
Qed.

Lemma rstrip_head s c r : PyStr.rstrip s = String c r -> exists s', s = String c s'.
Proof.
  destruct s as [|c0 s']; simpl; [discriminate|].
  destruct (PyStr.rstrip s'); [destruct (PyStr.isspace c0)|];
    intros H; inversion H; subst; eauto.
Qed.

Lemma split_rstrip s : PyStr.split (PyStr.rstrip s) = PyStr.split s.
Proof.
  induction s as [|c rest IH]; [reflexivity|].
  cbn [PyStr.rstrip].
  destruct (PyStr.rstrip rest) as [|c' r] eqn:Hr.
  - pose proof (rstrip_empty_split rest Hr) as Hempty.
    destruct (PyStr.isspace c) eqn:Hc.
    + simpl. rewrite Hc. symmetry. exact Hempty.
    + simpl. rewrite Hc. destruct rest as [|c1 rest1]; [reflexivity|].
      rewrite Hempty. simpl in Hr.
      destruct (PyStr.rstrip rest1); [|discriminate].
      destruct (PyStr.isspace c1); [reflexivity|discriminate].
  - destruct (rstrip_head _ _ _ Hr) as [s' ->].
    rewrite (split_cons c (String c' r)), (split_cons c (String c' s')).
    rewrite IH. reflexivity.
Qed.

(** Trimming the body first does not change its tokens. *)
Lemma split_strip s : PyStr.split (PyStr.strip s) = PyStr.split s.
Proof. unfold PyStr.strip. rewrite split_rstrip. apply split_lstrip. Qed.

(** ** Dictionaries *)

Lemma get_set d k v k' :
  PyDict.get (PyDict.set d k v) k' =
  if String.eqb k' k then Some v else PyDict.get d k'.
Proof.
  induction d as [|[k0 v0] rest IH]; simpl.
  - reflexivity.
  - destruct (String.eqb k k0) eqn:Hk; simpl.
    + apply String.eqb_eq in Hk. subst k0.
      destruct (String.eqb k' k); reflexivity.
    + rewrite IH. destruct (String.eqb k' k0) eqn:Hk0; [|reflexivity].
      apply String.eqb_eq in Hk0. subst k0.
      rewrite String.eqb_sym, Hk. reflexivity.
Qed.

Lemma validated_set constants k v :
  validated constants -> numeric v = true ->
  validated (PyDict.set constants k v).
Proof.
  intros Hval Hnum k' v'. rewrite get_set.
  destruct (String.eqb k' k); [|apply Hval].
  intros H. inversion H; subst.
  destruct v'; simpl in *; auto; discriminate.
Qed.

(** ** Names *)

(** A name that matches the pattern is not an integer literal, so a literal
    is never shadowed by a constant of a validated mapping. *)
Lemma parse_name k : name_match k = true -> PyInt.parse k = None.
Proof.
  destruct k as [|c rest]; [discriminate|].
  unfold name_match. intros H. apply andb_true_iff in H. destruct H as [Hc _].
  destruct c as [[] [] [] [] [] [] [] []]; try discriminate Hc; reflexivity.
Qed.

Lemma names_valid_literal constants t z :
  names_valid constants -> PyInt.parse t = Some z ->
  PyDict.get constants t = None.
Proof.
  intros Hnames Hparse.
  destruct (PyDict.get constants t) as [v|] eqn:Hget; [|reflexivity].
  apply Hnames, parse_name in Hget. congruence.
Qed.

Lemma names_valid_set constants k v :
  names_valid constants -> name_match k = true ->
  names_valid (PyDict.set constants k v).
Proof.
  intros Hnames Hk k' v'. rewrite get_set.
  destruct (String.eqb k' k) eqn:Heq; [|apply Hnames].
  apply String.eqb_eq in Heq. subst. auto.
Qed.

Section ConverterProperties.

Variable str_float : float -> string.
Variable str_container : pyval -> string.

(** ** C8: arrays *)

(** C8. [process_value] of an array transforms the elements in input order and
    joins the results between brackets with [", "] and no trailing comma; an
    element that fails makes the array fail with the same exception; the
    empty array gives "[]" and [[1, [2, 3], 4]] gives "[1, [2, 3], 4]". *)
Theorem process_value_array constants :
  (forall l texts,
     Forall2 (fun x text => process_value str_float str_container x constants = Ok text)
       l texts ->
     process_value str_float str_container (PList l) constants
       = Ok ("[" ++ PyStr.join ", " texts ++ "]"))
  /\ (forall pre x post texts ex,
     Forall2 (fun x text => process_value str_float str_container x constants = Ok text)
       pre texts ->
     process_value str_float str_container x constants = Raise ex ->
     process_value str_float str_container (PList (pre ++ x :: post)) constants = Raise ex)
  /\ PyStr.join ", " [] = ""
  /\ (forall s, PyStr.join ", " [s] = s)
  /\ (forall s t rest,
        PyStr.join ", " (s :: t :: rest) = s ++ ", " ++ PyStr.join ", " (t :: rest))
  /\ process_value str_float str_container (PList []) constants = Ok "[]"
  /\ process_value str_float str_container
       (PList [PInt 1; PList [PInt 2; PInt 3]; PInt 4]) constants
       = Ok "[1, [2, 3], 4]".
Proof.
  repeat split.
  - intros l texts Hall. simpl.
    rewrite (map_result_forall2 _ _ _ Hall). reflexivity.
  - intros pre x post texts ex Hpre Hx. simpl.
    rewrite (map_result_raise _ _ _ _ _ _ Hpre Hx). reflexivity.
Qed.

(** ** C5: values that are no number, array or string *)

(** C5, on the code. A mapping and [null] are rejected with the
    [ConfigError] of their branch, but a boolean takes the branch of the
    numbers and is rendered as [True] or [False]. *)
Theorem process_value_other_shapes constants :
  (forall d, process_value str_float str_container (PDict d) constants
             = Raise (ConfigError DictNotAllowed))
  /\ process_value str_float str_container PNone constants
     = Raise (ConfigError (UnsupportedType PNone))
  /\ process_value str_float str_container (PBool true) constants = Ok "True"
  /\ process_value str_float str_container (PBool false) constants = Ok "False".
Proof. repeat split. Qed.

(** ** C10: the two renderers of arrays *)

Lemma arr_item_list a :
  arr_item str_float str_container (PList a) = arr_to_str str_float str_container a.
Proof. reflexivity. Qed.

Lemma process_value_numeric constants v :
  numeric v = true ->
  process_value str_float str_container v constants
    = Ok (arr_item str_float str_container v).
Proof.
  induction v as [|b|z|f|s|l IH|d] using pyval_list_ind;
    simpl; try discriminate; try reflexivity.
  intros Hnum. rewrite (map_result_ok _ (arr_item str_float str_container)).
  - reflexivity.
  - rewrite forallb_forall in Hnum. rewrite Forall_forall in IH |- *.
    intros x Hx. apply IH; auto.
Qed.

(** C10. On a numeric array (arrays nested to any depth whose leaves are
    all numbers) the renderer of the constants, [arr_to_str], and the
    general [process_value] give the same text. *)
Theorem arr_to_str_process_value constants a :
  numeric (PList a) = true ->
  process_value str_float str_container (PList a) constants
    = Ok (arr_to_str str_float str_container a).
Proof.
  intros Hnum. rewrite (process_value_numeric constants _ Hnum).
  reflexivity.
Qed.

(** ** C6: validation of the constants *)

Lemma check_elem_numeric v :
  check_elem v = if numeric v then Ok tt else Raise (ConfigError ArrayOnlyNumbers).
Proof.
  induction v as [|b|z|f|s|l IH|d] using pyval_list_ind; try reflexivity.
  simpl. induction IH as [|x l Hx Hl IHl]; simpl.
  - reflexivity.
  - rewrite Hx. destruct (numeric x); simpl; [exact IHl|reflexivity].
Qed.

Lemma check_array_numeric arr :
  check_array arr =
  if numeric (PList arr) then Ok tt else Raise (ConfigError ArrayOnlyNumbers).
Proof. exact (check_elem_numeric (PList arr)). Qed.

Lemma numeric_number v : PyNum.is_number v = true -> numeric v = true.
Proof. destruct v; simpl; auto; discriminate. Qed.

(** The loop of [main] over the constants accepts exactly the values that
    are [numeric], under names that match the pattern. *)
Lemma build_constants_ok items :
  forall acc c,
    build_constants items acc = Ok c ->
    Forall (fun kv => name_match (fst kv) = true /\ numeric (snd kv) = true) items.
Proof.
  induction items as [|[k v] rest IH]; intros acc c; simpl.
  - constructor.
  - destruct (name_match k) eqn:Hname; simpl; [|discriminate].
    destruct (PyNum.is_number v) eqn:Hnum.
    + intros H. constructor; [|exact (IH _ _ H)].
      simpl. auto using numeric_number.
    + destruct v as [| | | | |arr|]; try discriminate.
      rewrite check_array_numeric.
      destruct (numeric (PList arr)) eqn:Harr; simpl; [|discriminate].
      intros H. constructor; [|exact (IH _ _ H)]. auto.
Qed.


(** C6, on the code. The validation accepts a constant bound to a boolean,
    and an array that holds a boolean at any depth; [main] then writes them
    out as [True] and [False]. A string in the same places is rejected with
    the [ConfigError] of its branch. *)
Theorem build_constants_accepts_bool :
  build_constants [("flag", PBool true)] [] = Ok [("flag", PBool true)]
  /\ build_constants [("flags", PList [PInt 1; PList [PBool false]])] []
     = Ok [("flags", PList [PInt 1; PList [PBool false]])]
  /\ main str_float str_container [("constants",
            PDict [("flag", PBool true);
                   ("flags", PList [PInt 1; PList [PBool false]])])]
     = Ok ["const flag = True;"; "const flags = [1, [False]];"]
  /\ build_constants [("flag", PStr "yes")] []
     = Raise (ConfigError (ConstantNotNumberOrArray "flag"))
  /\ build_constants [("flags", PList [PInt 1; PList [PStr "no"]])] []
     = Raise (ConfigError ArrayOnlyNumbers).
Proof. repeat split. Qed.

(** The mapping that [main] builds satisfies the precondition under which
    the operands of the evaluator are numbers. *)
Lemma build_constants_validated items :
  forall acc c,
    validated acc -> build_constants items acc = Ok c -> validated c.
Proof.
  induction items as [|[k v] rest IH]; intros acc c Hacc; simpl.
  - intros H. inversion H; subst. exact Hacc.
  - destruct (name_match k); simpl; [|discriminate].
    destruct (PyNum.is_number v) eqn:Hnum.
    + apply IH. apply validated_set; auto using numeric_number.
    + destruct v as [| | | | |arr|]; try discriminate.
      rewrite check_array_numeric.
      destruct (numeric (PList arr)) eqn:Harr; simpl; [|discriminate].
      apply IH. apply validated_set; assumption.
Qed.

Lemma build_constants_names items :
  forall acc c,
    names_valid acc -> build_constants items acc = Ok c -> names_valid c.
Proof.
  induction items as [|[k v] rest IH]; intros acc c Hacc; simpl.
  - intros H. inversion H; subst. exact Hacc.
  - destruct (name_match k) eqn:Hname; simpl; [|discriminate].
    destruct (PyNum.is_number v).
    + apply IH. apply names_valid_set; assumption.
    + destruct v as [| | | | |arr|]; try discriminate.
      destruct (check_array arr); simpl; [|discriminate].
      apply IH. apply names_valid_set; assumption.
Qed.

(** ** C4: strings *)


End ConverterProperties.

(** ** Instances *)


Lemma process_value_array_witness :
  Forall2 (fun x text => process_value no_text no_text x [] = Ok text)
    [PInt 1; PStr "@(2 3 max)"] ["1"; "3"] /\
  process_value no_text no_text (PList [PInt 1; PStr "@(2 3 max)"]) [] = Ok "[1, 3]".
Proof.
  assert (Hall : Forall2 (fun x text => process_value no_text no_text x [] = Ok text)
                   [PInt 1; PStr "@(2 3 max)"] ["1"; "3"]).
  { repeat constructor. }
  split; [exact Hall|].
  destruct (process_value_array no_text no_text []) as (Hjoin & _).
  exact (Hjoin _ _ Hall).
Defined.

Lemma arr_to_str_process_value_witness :
  numeric (PList [PInt 1; PList [PInt 2; PInt 3]; PInt 4]) = true /\
  arr_to_str no_text no_text [PInt 1; PList [PInt 2; PInt 3]; PInt 4] = "[1, [2, 3], 4]" /\
  process_value no_text no_text (PList [PInt 1; PList [PInt 2; PInt 3]; PInt 4]) []
    = Ok (arr_to_str no_text no_text [PInt 1; PList [PInt 2; PInt 3]; PInt 4]).
Proof.
  split; [reflexivity|]. split; [reflexivity|].
  apply (arr_to_str_process_value no_text no_text []). reflexivity.
Defined.

(** The two documents of the specification, end to end. *)
Example main_scaled :
  main no_text no_text
    [("constants", PDict [("base", PInt 5)]); ("scaled", PStr "@(base 2 *)")]
  = Ok ["const base = 5;"; "const scaled = 10;"].
Proof. reflexivity. Qed.

Example main_array_operand :
  main no_text no_text
    [("constants", PDict [("arr", PList [PInt 1; PInt 2; PInt 3])]);
     ("total", PStr "@(arr 0 +)")]
  = Raise (ConfigError (CannotUseArray "arr")).
Proof. reflexivity. Qed.

Example main_no_constants :
  main no_text no_text [("scaled", PStr "@(1 2 +)")]
  = Raise (ConfigError NoConstantsSection).
Proof. reflexivity. Qed.

(** * Further properties of the evaluator *)

Lemma evaluate_ok_stack constants tokens v :
  evaluate_postfix_expression tokens constants = Ok v <->
  eval_tokens constants [] tokens = Ok [v].
Proof.
  unfold evaluate_postfix_expression.
  destruct (eval_tokens constants [] tokens) as [st|ex]; simpl.
  - destruct st as [|w [|w' rest]]; split; intros H; inversion H; reflexivity.
  - split; discriminate.
Qed.

(** ** Values below the operands are left alone *)

Lemma eval_token_frame constants st t st' base :
  eval_token constants st t = Ok st' ->
  eval_token constants (st ++ base)%list t = Ok (st' ++ base)%list.
Proof.
  unfold eval_token.
  destruct (is_arith_token t).
  { destruct st as [|b [|a rest]]; simpl; try discriminate.
    destruct (PyNum.of_val a), (PyNum.of_val b); try discriminate.
    destruct (String.eqb t "+");
      [destruct (PyNum.add n n0); simpl; intros H; inversion H; reflexivity|].
    destruct (String.eqb t "-");
      [destruct (PyNum.sub n n0); simpl; intros H; inversion H; reflexivity|].
    destruct (String.eqb t "*");
      [destruct (PyNum.mul n n0); simpl; intros H; inversion H; reflexivity|].
    intros H; inversion H; reflexivity. }
  destruct (String.eqb t "max").
  { destruct st as [|b [|a rest]]; simpl; try discriminate.
    destruct (PyNum.of_val a), (PyNum.of_val b); try discriminate.
    intros H; inversion H; reflexivity. }
  destruct (String.eqb t "abs").
  { destruct st as [|a rest]; simpl; try discriminate.
    destruct (PyNum.of_val a); try discriminate.
    intros H; inversion H; reflexivity. }
  unfold eval_operand.
  destruct (PyDict.get constants t) as [val|].
  - destruct (PyNum.is_list val); [discriminate|].
    intros H; inversion H; reflexivity.
  - destruct (PyInt.parse t); [|discriminate].
    intros H; inversion H; reflexivity.
Qed.

Lemma eval_tokens_frame constants tokens :
  forall st st' base,
    eval_tokens constants st tokens = Ok st' ->
    eval_tokens constants (st ++ base)%list tokens = Ok (st' ++ base)%list.
Proof.
  induction tokens as [|t rest IH]; intros st st' base; simpl.
  - intros H. inversion H. reflexivity.
  - destruct (eval_token constants st t) as [st1|ex] eqn:Ht; [|discriminate].
    simpl. intros Hrest.
    rewrite (eval_token_frame _ _ _ _ base Ht). simpl.
    apply IH, Hrest.
Qed.

(** X1. Two token sequences that each evaluate to a number, followed by a
    binary operator, evaluate to the operator applied to the two results,
    the first sequence giving the left operand; a sequence that evaluates to
    a number, followed by [abs], evaluates to its absolute value. *)
Theorem evaluate_compose constants (t1 t2 : list string) a b x y :
  evaluate_postfix_expression t1 constants = Ok a ->
  evaluate_postfix_expression t2 constants = Ok b ->
  PyNum.of_val a = Some x -> PyNum.of_val b = Some y ->
  evaluate_postfix_expression (t1 ++ t2 ++ ["+"]) constants
    = (r <- PyNum.add x y ;; Ok (PyNum.to_val r))
  /\ evaluate_postfix_expression (t1 ++ t2 ++ ["-"]) constants
    = (r <- PyNum.sub x y ;; Ok (PyNum.to_val r))
  /\ evaluate_postfix_expression (t1 ++ t2 ++ ["*"]) constants
    = (r <- PyNum.mul x y ;; Ok (PyNum.to_val r))
  /\ evaluate_postfix_expression (t1 ++ t2 ++ ["max"]) constants
    = Ok (PyNum.to_val (PyNum.max x y))
  /\ evaluate_postfix_expression (t1 ++ ["abs"]) constants
    = Ok (PyNum.to_val (PyNum.abs x)).
Proof.
  intros H1 H2 Hx Hy.
  apply evaluate_ok_stack in H1. apply evaluate_ok_stack in H2.
  apply of_val_some in Hx. apply of_val_some in Hy. subst a b.
  assert (Hrun : forall op,
             evaluate_postfix_expression (t1 ++ t2 ++ [op]) constants =
             (st <- eval_token constants [PyNum.to_val y; PyNum.to_val x] op ;;
              match st with
              | [v] => Ok v
              | _ => Raise (ConfigError (InvalidEvaluation (rev st)))
              end)).
  { intros op. unfold evaluate_postfix_expression.
    rewrite eval_tokens_app, H1. cbn [bind].
    rewrite eval_tokens_app.
    pose proof (eval_tokens_frame _ _ [] _ [PyNum.to_val x] H2) as Hframe.
    simpl in Hframe. rewrite Hframe. simpl.
    destruct (eval_token constants [PyNum.to_val y; PyNum.to_val x] op);
      reflexivity. }
  repeat split.
  - rewrite Hrun, eval_token_add. destruct (PyNum.add x y); reflexivity.
  - rewrite Hrun, eval_token_sub. destruct (PyNum.sub x y); reflexivity.
  - rewrite Hrun, eval_token_mul. destruct (PyNum.mul x y); reflexivity.
  - rewrite Hrun, eval_token_max. reflexivity.
  - unfold evaluate_postfix_expression.
    rewrite eval_tokens_app, H1. cbn [bind eval_tokens].
    rewrite eval_token_abs. reflexivity.
Qed.

Lemma evaluate_compose_witness :
  evaluate_postfix_expression ["7"; "2"; "*"] [] = Ok (PInt 14) /\
  evaluate_postfix_expression ["-9"; "abs"] [] = Ok (PInt 9) /\
  evaluate_postfix_expression (["7"; "2"; "*"] ++ ["-9"; "abs"] ++ ["-"]) []
    = Ok (PInt 5).
Proof.
  split; [reflexivity|]. split; [reflexivity|].
  destruct (evaluate_compose [] ["7"; "2"; "*"] ["-9"; "abs"] (PInt 14) (PInt 9)
              (PyNum.NInt 14) (PyNum.NInt 9) eq_refl eq_refl eq_refl eq_refl)
    as (_ & Hsub & _).
  exact Hsub.
Defined.

(** ** The depth of the stack *)

Lemma eval_arith_ok t st st' :
  is_arith_token t = true -> eval_arith t st = Ok st' ->
  exists b a rest r, st = b :: a :: rest /\ st' = r :: rest.
Proof.
  intros Harith. unfold eval_arith, is_arith_token in *.
  destruct st as [|b [|a rest]]; try discriminate.
  destruct (PyNum.of_val a) as [x|], (PyNum.of_val b) as [y|]; try discriminate.
  destruct (String.eqb t "+");
    [destruct (PyNum.add x y); simpl; intros H; inversion H; eauto 8|].
  destruct (String.eqb t "-");
    [destruct (PyNum.sub x y); simpl; intros H; inversion H; eauto 8|].
  destruct (String.eqb t "*");
    [destruct (PyNum.mul x y); simpl; intros H; inversion H; eauto 8|].
  discriminate.
Qed.

Lemma eval_max_ok st st' :
  eval_max st = Ok st' ->
  exists b a rest r, st = b :: a :: rest /\ st' = r :: rest.
Proof.
  unfold eval_max. destruct st as [|b [|a rest]]; try discriminate.
  destruct (PyNum.of_val a), (PyNum.of_val b); try discriminate.
  intros H; inversion H; eauto 8.
Qed.

Lemma eval_abs_ok st st' :
  eval_abs st = Ok st' -> exists a rest r, st = a :: rest /\ st' = r :: rest.
Proof.
  unfold eval_abs. destruct st as [|a rest]; try discriminate.
  destruct (PyNum.of_val a); try discriminate.
  intros H; inversion H; eauto 8.
Qed.

Lemma eval_operand_ok constants t st st' :
  eval_operand constants t st = Ok st' -> exists v, st' = v :: st.
Proof.
  unfold eval_operand. destruct (PyDict.get constants t) as [val|].
  - destruct (PyNum.is_list val); [discriminate|]. intros H; inversion H; eauto.
  - destruct (PyInt.parse t); [|discriminate]. intros H; inversion H; eauto.
Qed.

Lemma eval_token_depth constants st t st' :
  eval_token constants st t = Ok st' ->
  Z.of_nat (List.length st') = Z.of_nat (List.length st) + token_weight t
  /\ (1 <= List.length st')%nat.
Proof.
  unfold eval_token, token_weight.
  destruct (is_arith_token t) eqn:Harith.
  { intros H. destruct (eval_arith_ok _ _ _ Harith H) as (b & a & rest & r & -> & ->).
    cbn [List.length orb]. split; lia. }
  destruct (String.eqb t "max").
  { intros H. destruct (eval_max_ok _ _ H) as (b & a & rest & r & -> & ->).
    cbn [List.length orb]. split; lia. }
  destruct (String.eqb t "abs").
  { intros H. destruct (eval_abs_ok _ _ H) as (a & rest & r & -> & ->).
    cbn [List.length orb]. split; lia. }
  intros H. destruct (eval_operand_ok _ _ _ _ H) as (v & ->).
  cbn [List.length orb]. split; lia.
Qed.

Lemma eval_tokens_depth constants tokens :
  forall st st',
    eval_tokens constants st tokens = Ok st' ->
    Z.of_nat (List.length st') = Z.of_nat (List.length st) + total_weight tokens.
Proof.
  induction tokens as [|t rest IH]; intros st st'; simpl.
  - intros H. inversion H. lia.
  - destruct (eval_token constants st t) as [st1|ex] eqn:Ht; [|discriminate].
    simpl. intros Hrest. apply IH in Hrest.
    apply eval_token_depth in Ht. lia.
Qed.

Lemma eval_tokens_nonempty constants tokens :
  forall st st',
    eval_tokens constants st tokens = Ok st' -> tokens <> [] ->
    (1 <= List.length st')%nat.
Proof.
  induction tokens as [|t rest IH]; intros st st'; simpl.
  - intros _ H. congruence.
  - destruct (eval_token constants st t) as [st1|ex] eqn:Ht; [|discriminate].
    simpl. intros Hrest _. destruct rest as [|t' rest'].
    + simpl in Hrest. inversion Hrest; subst.
      apply eval_token_depth in Ht. tauto.
    + apply (IH _ _ Hrest). discriminate.
Qed.

Lemma eval_tokens_prefix constants pre post st st' :
  eval_tokens constants st (pre ++ post) = Ok st' ->
  exists st1, eval_tokens constants st pre = Ok st1.
Proof.
  rewrite eval_tokens_app.
  destruct (eval_tokens constants st pre) as [st1|ex]; [eauto|discriminate].
Qed.

(** X2. When [evaluate] returns a value, the operand tokens outnumber the
    binary operators by exactly one over the whole sequence, and by at
    least one over every non-empty prefix of it. *)
Theorem evaluate_ok_weight constants (tokens : list string) v :
  evaluate_postfix_expression tokens constants = Ok v ->
  total_weight tokens = 1
  /\ forall pre post : list string,
       tokens = (pre ++ post)%list -> pre <> [] -> 1 <= total_weight pre.
Proof.
  intros Hv. apply evaluate_ok_stack in Hv. split.
  - apply eval_tokens_depth in Hv. simpl in Hv. lia.
  - intros pre post -> Hpre.
    destruct (eval_tokens_prefix _ _ _ _ _ Hv) as [st1 Hst1].
    pose proof (eval_tokens_nonempty _ _ _ _ Hst1 Hpre) as Hlen.
    apply eval_tokens_depth in Hst1. simpl in Hst1. lia.
Qed.

Lemma evaluate_ok_weight_witness :
  evaluate_postfix_expression ["5"; "3"; "-"; "abs"] [] = Ok (PInt 2) /\
  total_weight ["5"; "3"; "-"; "abs"] = 1.
Proof.
  split; [reflexivity|].
  exact (proj1 (evaluate_ok_weight [] ["5"; "3"; "-"; "abs"] (PInt 2) eq_refl)).
Defined.

(** ** Constants that are not named *)

Lemma eval_tokens_agree c1 c2 tokens :
  agree_on tokens c1 c2 ->
  forall st, eval_tokens c1 st tokens = eval_tokens c2 st tokens.
Proof.
  induction tokens as [|t rest IH]; intros Hagree st; simpl.
  - reflexivity.
  - assert (Ht : eval_token c1 st t = eval_token c2 st t).
    { unfold eval_token, eval_operand.
      rewrite (Hagree t (or_introl eq_refl)). reflexivity. }
    rewrite Ht. destruct (eval_token c2 st t) as [st1|ex]; simpl.
    + apply IH. intros t' Hin. apply Hagree. right. exact Hin.
    + reflexivity.
Qed.

(** X3. The outcome of [evaluate] depends on the constants mapping only
    through the names that occur as tokens: two mappings that agree on
    those give the same value or the same exception. *)
Theorem evaluate_agree c1 c2 (tokens : list string) :
  agree_on tokens c1 c2 ->
  evaluate_postfix_expression tokens c1 = evaluate_postfix_expression tokens c2.
Proof.
  intros Hagree. unfold evaluate_postfix_expression.
  rewrite (eval_tokens_agree c1 c2 tokens Hagree). reflexivity.
Qed.

Lemma agree_on_example :
  agree_on ["x"; "2"; "*"] [("x", PInt 10)] [("y", PList []); ("x", PInt 10)].
Proof.
  intros t [<-|[<-|[<-|[]]]]; reflexivity.
Defined.

Lemma evaluate_agree_witness :
  agree_on ["x"; "2"; "*"] [("x", PInt 10)] [("y", PList []); ("x", PInt 10)] /\
  evaluate_postfix_expression ["x"; "2"; "*"] [("x", PInt 10)]
  = evaluate_postfix_expression ["x"; "2"; "*"] [("y", PList []); ("x", PInt 10)].
Proof.
  split; [exact agree_on_example|].
  exact (evaluate_agree _ _ _ agree_on_example).
Defined.

(** ** The sequences that evaluate *)

(** X4. With constants that are numbers or arrays, [evaluate] returns [v]
    exactly when the tokens are the postfix form of a well-formed expression
    whose value is [v]. *)
Theorem evaluate_ok_postfix constants (tokens : list string) v :
  validated constants ->
  (evaluate_postfix_expression tokens constants = Ok v <->
   exists e n, tokens = postfix e /\ well_formed constants e /\
               denote e = Ok n /\ v = PyNum.to_val n).
Proof.
  intros Hval. split.
  - intros Hv.
    destruct (evaluate_ok_well_formed _ _ _ Hval Hv) as (e & He & Hwf & n & Hn & Hvn).
    exists e, n. auto.
  - intros (e & n & -> & Hwf & Hn & ->).
    rewrite (evaluate_postfix _ _ Hwf), Hn. reflexivity.
Qed.

Lemma evaluate_ok_postfix_witness :
  validated [("x", PInt 10); ("arr", PList [PInt 1; PInt 2])] /\
  exists e n,
    ["x"; "2"; "*"] = postfix e /\
    well_formed [("x", PInt 10); ("arr", PList [PInt 1; PInt 2])] e /\
    denote e = Ok n /\ PInt 20 = PyNum.to_val n.
Proof.
  split; [exact validated_example|].
  apply (evaluate_ok_postfix _ ["x"; "2"; "*"] (PInt 20) validated_example).
  reflexivity.
Defined.

(** ** Integer constants *)




(** * Further properties of the converter *)

Lemma map_result_raise_inv {A B} (f : A -> result B) l ex :
  map_result f l = Raise ex -> exists x, In x l /\ f x = Raise ex.
Proof.
  induction l as [|x l IH]; simpl; [discriminate|].
  destruct (f x) as [y|ex'] eqn:Hx; simpl.
  - destruct (map_result f l) as [ys|ex'']; simpl; [discriminate|].
    intros H. inversion H; subst.
    destruct (IH eq_refl) as (x' & Hin & Hx'). eauto.
  - intros H. inversion H; subst. eauto.
Qed.

Lemma map_result_ok_inv {A B} (f : A -> result B) l :
  forall ys, map_result f l = Ok ys -> Forall2 (fun x y => f x = Ok y) l ys.
Proof.
  induction l as [|x l IH]; simpl; intros ys.
  - intros H. inversion H. constructor.
  - destruct (f x) as [y|ex] eqn:Hx; simpl; [|discriminate].
    destruct (map_result f l) as [ys'|ex]; simpl; [|discriminate].
    intros H. inversion H; subst. constructor; auto.
Qed.

(** ** Names *)

Lemma name_tail_chars s : name_chars s = true -> name_tail s = true.
Proof.
  induction s as [|c rest IH]; simpl; [reflexivity|].
  intros H. apply andb_true_iff in H. destruct H as [Hc Hrest].
  rewrite Hc. auto.
Qed.

Lemma name_tail_newline body :
  name_chars body = true -> name_tail (body ++ String "010" "") = true.
Proof.
  induction body as [|c rest IH]; simpl; [reflexivity|].
  intros H. apply andb_true_iff in H. destruct H as [Hc Hrest].
  rewrite Hc. auto.
Qed.

Lemma name_tail_inv s :
  name_tail s = true ->
  name_chars s = true \/
  exists body, name_chars body = true /\ s = body ++ String "010" "".
Proof.
  induction s as [|c rest IH]; simpl; [auto|].
  destruct (is_name_char c) eqn:Hc.
  - intros H. destruct (IH H) as [Hchars|(body & Hbody & ->)].
    + left. rewrite Hchars. reflexivity.
    + right. exists (String c body). simpl. rewrite Hc, Hbody. auto.
  - intros H. apply andb_true_iff in H. destruct H as [Hnl Hrest].
    apply String.eqb_eq in Hrest. subst rest.
    apply N.eqb_eq in Hnl.
    right. exists "". split; [reflexivity|]. simpl. f_equal.
    rewrite <- (ascii_N_embedding c). unfold PyStr.code in Hnl. rewrite Hnl.
    reflexivity.
Qed.

(** X6. A name is accepted exactly when it is a lower-case letter followed
    by lower-case letters, digits and underscores, with or without one
    newline at the very end. *)
Theorem name_match_shape k :
  name_match k = true <->
  exists c body,
    is_lower c = true /\ name_chars body = true /\
    (k = String c body \/ k = String c (body ++ String "010" "")).
Proof.
  split.
  - destruct k as [|c rest]; simpl; [discriminate|].
    intros H. apply andb_true_iff in H. destruct H as [Hc Htail].
    destruct (name_tail_inv _ Htail) as [Hchars|(body & Hbody & ->)].
    + exists c, rest. auto.
    + exists c, body. auto.
  - intros (c & body & Hc & Hbody & [->| ->]); simpl; rewrite Hc; simpl.
    + apply name_tail_chars, Hbody.
    + apply name_tail_newline, Hbody.
Qed.

(** ** Validation of arrays *)

Lemma numeric_leaves v :
  numeric v = true <-> Forall (fun x => PyNum.is_number x = true) (leaves v).
Proof.
  induction v as [|b|z|f|s|l IH|d] using pyval_list_ind;
    try (simpl; split; [intros H; constructor; [exact H|constructor]
                       |intros H; inversion H; assumption]).
  simpl. rewrite forallb_forall, Forall_flat_map, Forall_forall.
  rewrite Forall_forall in IH.
  split; intros H x Hx; apply (IH x Hx), H, Hx.
Qed.

(** X7. [check_array] accepts an array exactly when every value in it
    that is not itself an array, at any depth, passes
    [isinstance(.., (int, float))]; otherwise it raises the [ConfigError]
    "Array can contain only numbers or nested arrays". *)
Theorem check_array_leaves arr :
  (check_array arr = Ok tt <->
   Forall (fun x => PyNum.is_number x = true) (leaves (PList arr)))
  /\ (check_array arr <> Ok tt ->
      check_array arr = Raise (ConfigError ArrayOnlyNumbers)).
Proof.
  rewrite check_array_numeric. split.
  - rewrite <- numeric_leaves.
    destruct (numeric (PList arr)); split; try reflexivity; discriminate.
  - destruct (numeric (PList arr)); [intros H; destruct (H eq_refl)|reflexivity].
Qed.

Lemma check_array_leaves_witness :
  check_array [PInt 1; PList [PStr "two"]; PInt 3] <> Ok tt /\
  check_array [PInt 1; PList [PStr "two"]; PInt 3]
    = Raise (ConfigError ArrayOnlyNumbers).
Proof.
  assert (H : check_array [PInt 1; PList [PStr "two"]; PInt 3] <> Ok tt)
    by discriminate.
  split; [exact H|].
  exact (proj2 (check_array_leaves [PInt 1; PList [PStr "two"]; PInt 3]) H).
Defined.

Lemma name_match_shape_witness :
  is_lower "a" = true /\ name_chars "_1" = true /\ name_match "a_1" = true.
Proof.
  split; [reflexivity|]. split; [reflexivity|].
  apply (proj2 (name_match_shape "a_1")).
  exists "a"%char, "_1". repeat split. left. reflexivity.
Defined.

(** ** The constants mapping *)

Lemma get_none_keys d k : PyDict.get d k = None <-> ~ In k (keys d).
Proof.
  induction d as [|[k0 v0] rest IH]; simpl.
  - split; auto.
  - destruct (String.eqb k k0) eqn:Hk.
    + apply String.eqb_eq in Hk. subst. split; [discriminate|].
      intros H. exfalso. apply H. left. reflexivity.
    + apply String.eqb_neq in Hk. rewrite IH. split.
      * intros H [Heq|Hin]; [congruence|auto].
      * intros H Hin. apply H. right. exact Hin.
Qed.

Lemma set_fresh d k v :
  PyDict.get d k = None -> PyDict.set d k v = (d ++ [(k, v)])%list.
Proof.
  induction d as [|[k0 v0] rest IH]; simpl; [reflexivity|].
  destruct (String.eqb k k0); [discriminate|].
  intros H. rewrite (IH H). reflexivity.
Qed.

Lemma build_constants_distinct items :
  forall acc c,
    NoDup (keys (acc ++ items)%list) ->
    build_constants items acc = Ok c -> c = (acc ++ items)%list.
Proof.
  induction items as [|[k v] rest IH]; intros acc c Hnodup; simpl.
  - intros H. inversion H. rewrite app_nil_r. reflexivity.
  - assert (Hfresh : PyDict.set acc k v = (acc ++ [(k, v)])%list).
    { apply set_fresh, get_none_keys. unfold keys in *.
      rewrite map_app in Hnodup. simpl in Hnodup.
      apply NoDup_remove_2 in Hnodup. intros Hin. apply Hnodup.
      apply in_or_app. left. exact Hin. }
    assert (Hnext : NoDup (keys ((acc ++ [(k, v)]) ++ rest)%list)).
    { rewrite <- app_assoc. exact Hnodup. }
    destruct (name_match k); simpl; [|discriminate].
    destruct (PyNum.is_number v).
    + rewrite Hfresh. intros H. rewrite (IH _ _ Hnext H), <- app_assoc. reflexivity.
    + destruct v as [| | | | |arr|]; try discriminate.
      destruct (check_array arr); simpl; [|discriminate].
      rewrite Hfresh. intros H. rewrite (IH _ _ Hnext H), <- app_assoc. reflexivity.
Qed.

Lemma build_constants_accepts items :
  forall acc,
    Forall (fun kv => name_match (fst kv) = true /\ numeric (snd kv) = true) items ->
    exists c, build_constants items acc = Ok c.
Proof.
  induction items as [|[k v] rest IH]; intros acc Hall; simpl.
  - eauto.
  - inversion Hall as [|? ? [Hname Hnum] Hrest]; subst. simpl in Hname, Hnum.
    rewrite Hname. simpl.
    destruct (PyNum.is_number v) eqn:Hv; [apply IH, Hrest|].
    destruct v as [| | | | |arr|]; try discriminate.
    rewrite check_array_numeric, Hnum. simpl. apply IH, Hrest.
Qed.

(** X8. The validation loop of [main] accepts a constants section exactly
    when every name matches the pattern and every value is a number or an
    array of numbers and such arrays; when it does and the names are
    distinct, the mapping it builds is the section itself, in the same
    order. *)
Theorem build_constants_spec items :
  ((exists c, build_constants items [] = Ok c) <->
   Forall (fun kv => name_match (fst kv) = true /\ numeric (snd kv) = true) items)
  /\ (forall c,
        NoDup (keys items) -> build_constants items [] = Ok c -> c = items).
Proof.
  split; [split|].
  - intros [c Hc]. exact (build_constants_ok items [] c Hc).
  - apply build_constants_accepts.
  - intros c Hnodup Hc. exact (build_constants_distinct items [] c Hnodup Hc).
Qed.

Lemma build_constants_spec_witness :
  NoDup (keys [("a", PInt 1); ("b", PList [PInt 2; PList []])]) /\
  build_constants [("a", PInt 1); ("b", PList [PInt 2; PList []])] []
    = Ok [("a", PInt 1); ("b", PList [PInt 2; PList []])].
Proof.
  assert (Hnodup : NoDup (keys [("a", PInt 1); ("b", PList [PInt 2; PList []])])).
  { repeat constructor; simpl; intros H; intuition discriminate. }
  split; [exact Hnodup|].
  destruct (build_constants_accepts
              [("a", PInt 1); ("b", PList [PInt 2; PList []])] []) as [c Hc].
  { repeat constructor. }
  rewrite Hc. f_equal.
  exact (proj2 (build_constants_spec _) c Hnodup Hc).
Defined.

(** * Where the errors come from *)

Ltac other_message :=
  let H := fresh "H" in
  let u := fresh "u" in
  let Hu := fresh "Hu" in
  intros H; inversion H; subst;
  split; [reflexivity|split; intros u Hu; discriminate Hu].

Lemma eval_token_error constants st t m :
  eval_token constants st t = Raise (ConfigError m) ->
  raised_by_evaluate m = true
  /\ (forall u, m = UnknownToken u ->
        u = t /\ is_operator t = false /\
        PyDict.get constants t = None /\ PyInt.parse t = None)
  /\ (forall u, m = CannotUseArray u ->
        u = t /\ is_operator t = false /\
        exists l, PyDict.get constants t = Some (PList l)).
Proof.
  unfold eval_token.
  destruct (is_arith_token t) eqn:Harith.
  { unfold eval_arith. destruct st as [|b [|a rest]]; try other_message.
    destruct (PyNum.of_val a) as [x|], (PyNum.of_val b) as [y|];
      try other_message.
    destruct (String.eqb t "+").
    { destruct (PyNum.add x y) as [r|ex] eqn:Hop; simpl; [discriminate|].
      apply arith_raises in Hop. subst. discriminate. }
    destruct (String.eqb t "-").
    { destruct (PyNum.sub x y) as [r|ex] eqn:Hop; simpl; [discriminate|].
      apply arith_raises in Hop. subst. discriminate. }
    destruct (String.eqb t "*").
    { destruct (PyNum.mul x y) as [r|ex] eqn:Hop; simpl; [discriminate|].
      apply arith_raises in Hop. subst. discriminate. }
    discriminate. }
  destruct (String.eqb t "max") eqn:Hmax.
  { unfold eval_max. destruct st as [|b [|a rest]]; try other_message.
    destruct (PyNum.of_val a) as [x|], (PyNum.of_val b) as [y|];
      try other_message. discriminate. }
  destruct (String.eqb t "abs") eqn:Habs.
  { unfold eval_abs. destruct st as [|a rest]; try other_message.
    destruct (PyNum.of_val a) as [x|]; try other_message. discriminate. }
  assert (Hop : is_operator t = false).
  { unfold is_operator. rewrite Harith, Hmax, Habs. reflexivity. }
  unfold eval_operand.
  destruct (PyDict.get constants t) as [val|] eqn:Hget.
  - destruct val as [| | | | |l|]; simpl; try discriminate.
    intros H. inversion H; subst. split; [reflexivity|]. split.
    + intros u Hu. discriminate Hu.
    + intros u Hu. inversion Hu; subst. split; [reflexivity|]. split; eauto.
  - destruct (PyInt.parse t) eqn:Hparse; [discriminate|].
    intros H. inversion H; subst. split; [reflexivity|]. split.
    + intros u Hu. inversion Hu; subst. auto.
    + intros u Hu. discriminate Hu.
Qed.

Lemma eval_tokens_error constants tokens m :
  forall st,
    eval_tokens constants st tokens = Raise (ConfigError m) ->
    exists t, In t tokens /\
      raised_by_evaluate m = true
      /\ (forall u, m = UnknownToken u ->
            u = t /\ is_operator t = false /\
            PyDict.get constants t = None /\ PyInt.parse t = None)
      /\ (forall u, m = CannotUseArray u ->
            u = t /\ is_operator t = false /\
            exists l, PyDict.get constants t = Some (PList l)).
Proof.
  induction tokens as [|t rest IH]; intros st; simpl; [discriminate|].
  destruct (eval_token constants st t) as [st1|ex] eqn:Ht; simpl.
  - intros H. destruct (IH _ H) as (t' & Hin & Hrest). exists t'. auto.
  - intros H. inversion H; subst. exists t. split; [auto|].
    exact (eval_token_error _ _ _ _ Ht).
Qed.

(** X17. The token named in an error of [evaluate] is a token of the
    sequence that deserves it: after "Unknown token" it is no operator, no
    key of the constants mapping and not an integer literal; after "Cannot
    use array" it is no operator and is bound to an array. *)
Theorem evaluate_error_token constants (tokens : list string) u :
  (evaluate_postfix_expression tokens constants
     = Raise (ConfigError (UnknownToken u)) ->
   In u tokens /\ is_operator u = false /\
   PyDict.get constants u = None /\ PyInt.parse u = None)
  /\ (evaluate_postfix_expression tokens constants
        = Raise (ConfigError (CannotUseArray u)) ->
      In u tokens /\ is_operator u = false /\
      exists l, PyDict.get constants u = Some (PList l)).
Proof.
  unfold evaluate_postfix_expression.
  destruct (eval_tokens constants [] tokens) as [st|ex] eqn:Hrun; simpl.
  - split; destruct st as [|v [|w rest]]; discriminate.
  - split; intros H; inversion H; subst;
      destruct (eval_tokens_error _ _ _ _ Hrun) as (t & Hin & _ & Hunknown & Harray).
    + destruct (Hunknown u eq_refl) as (-> & Hrest). auto.
    + destruct (Harray u eq_refl) as (-> & Hrest). auto.
Qed.

Lemma evaluate_error_token_witness :
  evaluate_postfix_expression ["1"; "foo"; "+"] []
    = Raise (ConfigError (UnknownToken "foo")) /\
  In "foo" ["1"; "foo"; "+"] /\ PyInt.parse "foo" = None.
Proof.
  split; [reflexivity|].
  destruct (proj1 (evaluate_error_token [] ["1"; "foo"; "+"] "foo") eq_refl)
    as (Hin & _ & _ & Hparse).
  split; assumption.
Defined.

Lemma evaluate_raised_by constants tokens m :
  evaluate_postfix_expression tokens constants = Raise (ConfigError m) ->
  raised_by_evaluate m = true.
Proof.
  unfold evaluate_postfix_expression.
  destruct (eval_tokens constants [] tokens) as [st|ex] eqn:Hrun; simpl.
  - destruct st as [|v [|w rest]]; intros H; inversion H; reflexivity.
  - intros H. inversion H; subst.
    destruct (eval_tokens_error _ _ _ _ Hrun) as (t & _ & Hm & _). exact Hm.
Qed.

Lemma build_constants_invalid_name items k :
  forall acc,
    build_constants items acc = Raise (ConfigError (InvalidConstantName k)) ->
    In k (keys items) /\ name_match k = false.
Proof.
  induction items as [|[k0 v] rest IH]; intros acc; simpl; [discriminate|].
  destruct (name_match k0) eqn:Hname; simpl.
  - assert (Hnext : build_constants rest (PyDict.set acc k0 v)
                    = Raise (ConfigError (InvalidConstantName k)) ->
                    (k0 = k \/ In k (keys rest)) /\ name_match k = false).
    { intros H. destruct (IH _ H). auto. }
    destruct (PyNum.is_number v); [exact Hnext|].
    destruct v as [| | | | |arr|]; try discriminate.
    rewrite check_array_numeric.
    destruct (numeric (PList arr)); simpl; [exact Hnext|discriminate].
  - intros H. inversion H; subst. auto.
Qed.

Lemma build_constants_raised_by items :
  forall acc m,
    build_constants items acc = Raise (ConfigError m) ->
    raised_by_process_value m = false /\ m <> NoConstantsSection /\
    forall k, m <> InvalidTopLevelName k.
Proof.
  induction items as [|[k0 v] rest IH]; intros acc m; simpl; [discriminate|].
  destruct (name_match k0); simpl;
    [|intros H; inversion H; repeat split; discriminate].
  destruct (PyNum.is_number v); [apply IH|].
  destruct v as [| | | | |arr|];
    try solve [intros H; inversion H; repeat split; discriminate].
  rewrite check_array_numeric.
  destruct (numeric (PList arr)); simpl; [apply IH|].
  intros H; inversion H; repeat split; discriminate.
Qed.

Lemma in_keys_del d k x : In k (keys (PyDict.del d x)) -> In k (keys d).
Proof.
  induction d as [|[k0 v0] rest IH]; simpl; [auto|].
  destruct (String.eqb x k0); simpl; [auto|].
  intros [H|H]; auto.
Qed.



Lemma build_constants_error items :
  forall acc ex,
    build_constants items acc = Raise ex ->
    exists m, ex = ConfigError m /\ operand_type_error m = false.
Proof.
  induction items as [|[k v] rest IH]; intros acc ex; simpl.
  - discriminate.
  - destruct (name_match k); simpl; [|intros H; inversion H; eauto].
    destruct (PyNum.is_number v); [apply IH|].
    destruct v as [| | | | |arr|]; try solve [intros H; inversion H; eauto].
    rewrite check_array_numeric.
    destruct (numeric (PList arr)); simpl; [apply IH|].
    intros H; inversion H; eauto.
Qed.

Lemma evaluate_no_operand_error constants tokens m :
  validated constants ->
  evaluate_postfix_expression tokens constants = Raise (ConfigError m) ->
  operand_type_error m = false.
Proof.
  intros Hval. unfold evaluate_postfix_expression.
  pose proof (eval_tokens_numeric constants tokens Hval [] (Forall_nil _)) as H.
  destruct (eval_tokens constants [] tokens) as [st|ex]; simpl.
  - destruct st as [|v [|w rest]]; intros Heq; inversion Heq; reflexivity.
  - intros Heq. inversion Heq; subst. exact H.
Qed.

Lemma forall2_in_left {A B} (R : A -> B -> Prop) l ys x :
  Forall2 R l ys -> In x l -> exists y, In y ys /\ R x y.
Proof.
  induction 1 as [|x' y l' ys' Hxy Hrest IH]; simpl; [tauto|].
  intros [<-|Hin].
  - exists y. auto.
  - destruct (IH Hin) as (y' & Hy' & HR). exists y'. auto.
Qed.

Lemma blank_split s : blank s = true -> PyStr.split s = [].
Proof.
  induction s as [|c rest IH]; simpl; [reflexivity|].
  intros H. apply andb_true_iff in H. destruct H as [Hc Hrest].
  rewrite Hc. auto.
Qed.

Lemma set_keys_forall (P : string -> Prop) d k v :
  Forall (fun kv => P (fst kv)) d -> P k ->
  Forall (fun kv => P (fst kv)) (PyDict.set d k v).
Proof.
  induction d as [|[k0 v0] rest IH]; simpl; intros Hd Hk.
  - constructor; [exact Hk|constructor].
  - inversion Hd as [|? ? Hk0 Hrest]; subst.
    destruct (String.eqb k k0); constructor; auto.
Qed.

Lemma build_constants_keys items :
  forall acc c,
    Forall (fun kv => name_match (fst kv) = true) acc ->
    build_constants items acc = Ok c ->
    Forall (fun kv => name_match (fst kv) = true) c.
Proof.
  induction items as [|[k v] rest IH]; intros acc c Hacc; simpl.
  - intros H. inversion H; subst. exact Hacc.
  - destruct (name_match k) eqn:Hname; simpl; [|discriminate].
    destruct (PyNum.is_number v).
    + apply IH. apply (set_keys_forall (fun k => name_match k = true)); assumption.
    + destruct v as [| | | | |arr|]; try discriminate.
      destruct (check_array arr); simpl; [|discriminate].
      apply IH. apply (set_keys_forall (fun k => name_match k = true)); assumption.
Qed.

Lemma names_valid_nil : names_valid [].
Proof. intros k v. discriminate. Qed.

Lemma validated_nil : validated [].
Proof. intros k v. discriminate. Qed.


Section ConverterFurtherProperties.

Variable str_float : float -> string.
Variable str_container : pyval -> string.

(** An expression string is evaluated on the tokens of its body. *)
Lemma process_value_expr constants body :
  process_value str_float str_container (PStr ("@(" ++ body ++ ")")) constants
  = (r <- evaluate_postfix_expression (PyStr.split body) constants ;;
     Ok (py_str str_float str_container r)).
Proof.
  assert (Htest : PyStr.startswith "@(" ("@(" ++ body ++ ")")
                  && PyStr.endswith ")" ("@(" ++ body ++ ")") = true)
    by (apply expr_string; eauto).
  cbn [process_value]. rewrite Htest, slice_expr, split_strip. reflexivity.
Qed.

(** X9. An expression string whose body is empty or holds only whitespace
    always fails, with the [ConfigError] about an empty stack. *)
Theorem process_value_blank constants body :
  blank body = true ->
  process_value str_float str_container (PStr ("@(" ++ body ++ ")")) constants
  = Raise (ConfigError (InvalidEvaluation [])).
Proof.
  intros Hblank. rewrite process_value_expr, (blank_split _ Hblank).
  reflexivity.
Qed.

(** X10. The outcome of an expression string depends on its body only
    through the tokens: two bodies that split into the same tokens, however
    the whitespace between and around them is laid out, give the same text
    or the same exception. *)
Theorem process_value_layout constants body1 body2 :
  PyStr.split body1 = PyStr.split body2 ->
  process_value str_float str_container (PStr ("@(" ++ body1 ++ ")")) constants
  = process_value str_float str_container (PStr ("@(" ++ body2 ++ ")")) constants.
Proof.
  intros Hsplit. rewrite !process_value_expr, Hsplit. reflexivity.
Qed.

(** X11. With constants that are numbers or arrays and none a double, an
    expression string that is accepted renders as the decimal text of an
    integer, or as [True] or [False]. *)
Theorem process_value_integer_text constants s text :
  validated constants -> float_free constants ->
  process_value str_float str_container (PStr s) constants = Ok text ->
  (exists z, text = str_int z) \/ text = "True" \/ text = "False".
Proof.
  intros Hval Hfree. cbn [process_value].
  destruct (PyStr.startswith "@(" s && PyStr.endswith ")" s); [|discriminate].
  destruct (evaluate_postfix_expression
              (PyStr.split (PyStr.strip (PyStr.slice s 2 (-1)))) constants)
    as [v|ex] eqn:Hv; simpl; [|discriminate].
  intros H. inversion H; subst.
  destruct (evaluate_ok_well_formed _ _ _ Hval Hv) as (_ & _ & _ & n & _ & ->).
  apply evaluate_ok_stack in Hv.
  pose proof (eval_tokens_float_free constants
                (PyStr.split (PyStr.strip (PyStr.slice s 2 (-1))))
                Hfree [] (Forall_nil _)) as Hout.
  rewrite Hv in Hout. simpl in Hout. inversion Hout as [|? ? Hn _]; subst.
  destruct n as [[]|z|f]; simpl; eauto.
  destruct (Hn f eq_refl).
Qed.

(** X12. When [process_value] returns a text, the value holds no mapping,
    no [null] and no string other than an expression string, at any depth
    of its arrays. *)
Theorem process_value_renderable constants v text :
  process_value str_float str_container v constants = Ok text ->
  renderable v = true.
Proof.
  revert text.
  induction v as [|b|z|f|s|l IH|d] using pyval_list_ind; intros text;
    cbn [process_value renderable]; try discriminate; try reflexivity.
  - destruct (PyStr.startswith "@(" s && PyStr.endswith ")" s);
      [reflexivity|discriminate].
  - destruct (map_result (fun x => process_value str_float str_container x constants) l)
      as [texts|ex] eqn:Hmap; simpl; [|discriminate].
    intros _. apply map_result_ok_inv in Hmap.
    apply forallb_forall. rewrite Forall_forall in IH.
    intros x Hx. destruct (forall2_in_left _ _ _ _ Hmap Hx) as (y & _ & Hy).
    exact (IH x Hx y Hy).
Qed.

Lemma process_value_no_operand_error constants v m :
  validated constants ->
  process_value str_float str_container v constants = Raise (ConfigError m) ->
  operand_type_error m = false.
Proof.
  intros Hval.
  induction v as [|b|z|f|s|l IH|d] using pyval_list_ind;
    cbn [process_value]; try discriminate;
    try (intros H; inversion H; reflexivity).
  - destruct (PyStr.startswith "@(" s && PyStr.endswith ")" s);
      [|intros H; inversion H; reflexivity].
    destruct (evaluate_postfix_expression
                (PyStr.split (PyStr.strip (PyStr.slice s 2 (-1)))) constants)
      as [v|ex] eqn:Hv; simpl; [discriminate|].
    intros H. inversion H; subst.
    exact (evaluate_no_operand_error _ _ _ Hval Hv).
  - destruct (map_result (fun x => process_value str_float str_container x constants) l)
      as [texts|ex] eqn:Hmap; simpl; [discriminate|].
    intros H. inversion H; subst.
    destruct (map_result_raise_inv _ _ _ Hmap) as (x & Hx & Hraise).
    rewrite Forall_forall in IH. exact (IH x Hx Hraise).
Qed.


(** ** The whole run *)

Lemma other_lines_ok constants items :
  forall lines,
    other_lines str_float str_container items constants = Ok lines ->
    Forall2 (entry_line str_float str_container constants) items lines.
Proof.
  induction items as [|[k v] rest IH]; intros lines; simpl.
  - intros H. inversion H. constructor.
  - destruct (name_match k) eqn:Hname; simpl; [|discriminate].
    destruct (process_value str_float str_container v constants)
      as [text|ex] eqn:Hv; simpl; [|discriminate].
    destruct (other_lines str_float str_container rest constants)
      as [lines'|ex]; simpl; [|discriminate].
    intros H. inversion H; subst. constructor; [|apply IH; reflexivity].
    split; [exact Hname|]. exists text. auto.
Qed.

Lemma other_lines_no_operand_error constants items m :
  validated constants ->
  other_lines str_float str_container items constants = Raise (ConfigError m) ->
  operand_type_error m = false.
Proof.
  intros Hval. induction items as [|[k v] rest IH]; simpl; [discriminate|].
  destruct (name_match k); simpl; [|intros H; inversion H; reflexivity].
  destruct (process_value str_float str_container v constants)
    as [text|ex] eqn:Hv; simpl.
  - destruct (other_lines str_float str_container rest constants)
      as [lines'|ex]; simpl; [discriminate|].
    intros H. inversion H; subst. apply IH. reflexivity.
  - intros H. inversion H; subst.
    exact (process_value_no_operand_error _ _ _ Hval Hv).
Qed.


(** X13. When [main] succeeds, its output is one declaration per constant
    of the mapping built from the constants section, in the order of the
    mapping, followed by one declaration per other top-level entry, in input
    order, each holding the text [process_value] gives for the entry; every
    declared name matches the pattern. *)
Theorem main_output data lines :
  main str_float str_container data = Ok lines ->
  exists section constants rest,
    PyDict.get data "constants" = Some (PDict section) /\
    build_constants section [] = Ok constants /\
    lines = (map (constant_line str_float str_container) constants ++ rest)%list /\
    Forall2 (entry_line str_float str_container constants) (PyDict.del data "constants") rest /\
    Forall (fun kv => name_match (fst kv) = true) constants /\
    List.length lines
      = (List.length constants + List.length (PyDict.del data "constants"))%nat.
Proof.
  unfold main.
  destruct (PyDict.get data "constants") as [[| | | | | |section]|]; try discriminate.
  destruct (build_constants section []) as [constants|ex] eqn:Hc; simpl;
    [|discriminate].
  destruct (other_lines str_float str_container (PyDict.del data "constants") constants)
    as [rest|ex] eqn:Hrest; simpl; [|discriminate].
  intros H. inversion H; subst.
  apply other_lines_ok in Hrest.
  exists section, constants, rest. repeat split; auto.
  - exact (build_constants_keys _ _ _ (Forall_nil _) Hc).
  - rewrite length_app, length_map. f_equal.
    symmetry. exact (Forall2_length Hrest).
Qed.

(** X14. Whatever the document, [main] never fails with one of the three
    errors about an operand that is not a number: the validation of the
    constants rules them out. *)
Theorem main_no_operand_error data m :
  main str_float str_container data = Raise (ConfigError m) ->
  operand_type_error m = false.
Proof.
  unfold main.
  destruct (PyDict.get data "constants") as [[| | | | | |section]|];
    try discriminate; try (intros H; inversion H; reflexivity).
  destruct (build_constants section []) as [constants|ex] eqn:Hc; simpl.
  - pose proof (build_constants_validated _ _ _ validated_nil Hc) as Hval.
    destruct (other_lines str_float str_container (PyDict.del data "constants")
                constants) as [rest|ex] eqn:Hrest; simpl; [discriminate|].
    intros H. inversion H; subst.
    exact (other_lines_no_operand_error _ _ _ Hval Hrest).
  - intros H. inversion H; subst.
    destruct (build_constants_error _ _ _ Hc) as (m' & Hm & Hkind).
    inversion Hm; subst. exact Hkind.
Qed.


Lemma process_value_raised_by constants v m :
  process_value str_float str_container v constants = Raise (ConfigError m) ->
  raised_by_process_value m = true.
Proof.
  induction v as [|b|z|f|s|l IH|d] using pyval_list_ind;
    cbn [process_value]; try discriminate;
    try (intros H; inversion H; reflexivity).
  - destruct (PyStr.startswith "@(" s && PyStr.endswith ")" s);
      [|intros H; inversion H; reflexivity].
    destruct (evaluate_postfix_expression
                (PyStr.split (PyStr.strip (PyStr.slice s 2 (-1)))) constants)
      as [v|ex] eqn:Hv; simpl; [discriminate|].
    intros H. inversion H; subst.
    apply evaluate_raised_by in Hv. destruct m; try discriminate; reflexivity.
  - destruct (map_result (fun x => process_value str_float str_container x constants) l)
      as [texts|ex] eqn:Hmap; simpl; [discriminate|].
    intros H. inversion H; subst.
    destruct (map_result_raise_inv _ _ _ Hmap) as (x & Hx & Hraise).
    rewrite Forall_forall in IH. exact (IH x Hx Hraise).
Qed.

Lemma other_lines_error constants items m :
  other_lines str_float str_container items constants = Raise (ConfigError m) ->
  raised_by_process_value m = true \/
  exists k, m = InvalidTopLevelName k /\ In k (keys items) /\ name_match k = false.
Proof.
  induction items as [|[k v] rest IH]; simpl; [discriminate|].
  destruct (name_match k) eqn:Hname; simpl.
  - destruct (process_value str_float str_container v constants)
      as [text|ex] eqn:Hv; simpl.
    + destruct (other_lines str_float str_container rest constants)
        as [lines'|ex]; simpl; [discriminate|].
      intros H. inversion H; subst.
      destruct (IH eq_refl) as [Hm|(k' & -> & Hin & Hk')]; [auto|].
      right. exists k'. auto.
    + intros H. inversion H; subst. left.
      exact (process_value_raised_by _ _ _ Hv).
  - intros H. inversion H; subst. right. exists k. auto.
Qed.

(** X18. The errors of [main] that name a cause are accurate: "No
    'constants' section" is raised exactly when the document has no such
    key; "Invalid constant name" names a key of the constants section that
    does not match the pattern; "Invalid top-level name" names a key of the
    document that does not match it. *)
Theorem main_error_cause data :
  (main str_float str_container data = Raise (ConfigError NoConstantsSection) <->
   PyDict.get data "constants" = None)
  /\ (forall k,
        main str_float str_container data
          = Raise (ConfigError (InvalidConstantName k)) ->
        exists section,
          PyDict.get data "constants" = Some (PDict section) /\
          In k (keys section) /\ name_match k = false)
  /\ (forall k,
        main str_float str_container data
          = Raise (ConfigError (InvalidTopLevelName k)) ->
        In k (keys data) /\ name_match k = false).
Proof.
  unfold main.
  destruct (PyDict.get data "constants") as [[| | | | | |section]|] eqn:Hget;
    try (split; [split; discriminate|split; discriminate]).
  - destruct (build_constants section []) as [constants|ex] eqn:Hc; simpl.
    + destruct (other_lines str_float str_container (PyDict.del data "constants")
                  constants) as [rest|ex] eqn:Hrest; simpl;
        [split; [split; discriminate|split; discriminate]|].
      split; [split; [|discriminate]|split].
      * intros H. inversion H; subst.
        destruct (other_lines_error _ _ _ Hrest) as [Hm|(k & Hk & _)];
          discriminate.
      * intros k H. inversion H; subst.
        destruct (other_lines_error _ _ _ Hrest) as [Hm|(k' & Hk & _)];
          discriminate.
      * intros k H. inversion H; subst.
        destruct (other_lines_error _ _ _ Hrest) as [Hm|(k' & Hk & Hin & Hname)];
          [discriminate|].
        inversion Hk; subst. split; [exact (in_keys_del _ _ _ Hin)|exact Hname].
    + split; [split; [|discriminate]|split].
      * intros H. inversion H; subst.
        destruct (build_constants_raised_by _ _ _ Hc) as (_ & Hno & _).
        destruct (Hno eq_refl).
      * intros k H. inversion H; subst.
        exists section. split; [reflexivity|].
        exact (build_constants_invalid_name _ _ _ Hc).
      * intros k H. inversion H; subst.
        destruct (build_constants_raised_by _ _ _ Hc) as (_ & _ & Hno).
        destruct (Hno k eq_refl).
  - split; [split; reflexivity|split; discriminate].
Qed.

End ConverterFurtherProperties.

(** X16. In the mapping [main] builds, no name reads as an integer, so a
    token that is an integer literal always stands for that integer. *)
Theorem literal_not_shadowed section constants t z st :
  build_constants section [] = Ok constants ->
  PyInt.parse t = Some z ->
  eval_token constants st t = Ok (PInt z :: st).
Proof.
  intros Hc Hparse.
  apply eval_token_literal; [|exact Hparse].
  apply (names_valid_literal _ _ z); [|exact Hparse].
  exact (build_constants_names _ _ _ names_valid_nil Hc).
Qed.

(** ** Instances of the further properties *)

Lemma float_free_validated_example :
  float_free [("x", PInt 10); ("arr", PList [PInt 1; PInt 2])].
Proof.
  intros k f. simpl.
  destruct (String.eqb k "x"); [discriminate|].
  destruct (String.eqb k "arr"); discriminate.
Defined.

Lemma process_value_blank_witness :
  blank "  " = true /\
  process_value no_text no_text (PStr ("@(" ++ "  " ++ ")")) []
    = Raise (ConfigError (InvalidEvaluation [])).
Proof.
  split; [reflexivity|].
  exact (process_value_blank no_text no_text [] "  " eq_refl).
Defined.

Lemma process_value_layout_witness :
  PyStr.split "x 2 *" = PyStr.split "  x   2 * " /\
  process_value no_text no_text (PStr ("@(" ++ "x 2 *" ++ ")")) [("x", PInt 10)]
  = process_value no_text no_text (PStr ("@(" ++ "  x   2 * " ++ ")")) [("x", PInt 10)].
Proof.
  split; [reflexivity|].
  exact (process_value_layout no_text no_text [("x", PInt 10)]
           "x 2 *" "  x   2 * " eq_refl).
Defined.

Lemma process_value_integer_text_witness :
  process_value no_text no_text (PStr "@(x 2 *)")
    [("x", PInt 10); ("arr", PList [PInt 1; PInt 2])] = Ok "20" /\
  ((exists z, "20" = str_int z) \/ "20" = "True" \/ "20" = "False").
Proof.
  split; [reflexivity|].
  exact (process_value_integer_text no_text no_text
           [("x", PInt 10); ("arr", PList [PInt 1; PInt 2])] "@(x 2 *)" "20"
           validated_example float_free_validated_example eq_refl).
Defined.

Lemma process_value_renderable_witness :
  process_value no_text no_text (PList [PInt 1; PStr "@(1 2 +)"]) [] = Ok "[1, 3]" /\
  renderable (PList [PInt 1; PStr "@(1 2 +)"]) = true.
Proof.
  split; [reflexivity|].
  exact (process_value_renderable no_text no_text []
           (PList [PInt 1; PStr "@(1 2 +)"]) "[1, 3]" eq_refl).
Defined.

Lemma main_output_witness :
  main no_text no_text
    [("constants", PDict [("base", PInt 5)]); ("scaled", PStr "@(base 2 *)")]
  = Ok ["const base = 5;"; "const scaled = 10;"] /\
  exists section constants rest,
    PyDict.get [("constants", PDict [("base", PInt 5)]); ("scaled", PStr "@(base 2 *)")]
      "constants" = Some (PDict section) /\
    build_constants section [] = Ok constants /\
    ["const base = 5;"; "const scaled = 10;"]
      = (map (constant_line no_text no_text) constants ++ rest)%list.
Proof.
  split; [reflexivity|].
  destruct (main_output no_text no_text
              [("constants", PDict [("base", PInt 5)]); ("scaled", PStr "@(base 2 *)")]
              ["const base = 5;"; "const scaled = 10;"] eq_refl)
    as (section & constants & rest & Hget & Hc & Hlines & _).
  exists section, constants, rest. auto.
Defined.

Lemma main_no_operand_error_witness :
  main no_text no_text [("constants", PDict []); ("v", PStr "@(1 +)")]
  = Raise (ConfigError (NotEnoughOperands "+")) /\
  operand_type_error (NotEnoughOperands "+") = false.
Proof.
  split; [reflexivity|].
  exact (main_no_operand_error no_text no_text
           [("constants", PDict []); ("v", PStr "@(1 +)")] _ eq_refl).
Defined.


Lemma literal_not_shadowed_witness :
  build_constants [("a", PInt 1)] [] = Ok [("a", PInt 1)] /\
  PyInt.parse "12" = Some 12 /\
  eval_token [("a", PInt 1)] [] "12" = Ok [PInt 12].
Proof.
  split; [reflexivity|]. split; [reflexivity|].
  exact (literal_not_shadowed [("a", PInt 1)] [("a", PInt 1)] "12" 12 []
           eq_refl eq_refl).
Defined.

Lemma main_error_cause_witness :
  PyDict.get [("scaled", PStr "@(1 2 +)")] "constants" = None /\
  main no_text no_text [("scaled", PStr "@(1 2 +)")]
    = Raise (ConfigError NoConstantsSection).
Proof.
  split; [reflexivity|].
  destruct (main_error_cause no_text no_text [("scaled", PStr "@(1 2 +)")])
    as (Hmissing & _).
  exact (proj2 Hmissing eq_refl).
Defined.
